(** * errorReport: the diagnostic reporting core of EphemerisCompute

  A shallow embedding of [src/coreUtils/errorReport.c]: the five static
  scratch buffers, the lazily opened log file with its recursion latch,
  the four severity emitters and the guarded read [dcffread].

  The C functions mutate process-wide state and may leave through
  [exit]; they are embedded in a small state monad whose outcomes are
  a normal return, a process exit, a fault of the C abstract machine
  (such as a write past the end of an array), or exhausted fuel for the
  mutual recursion between [ephem_log] and [ephem_fatal]. *)

From Stdlib Require Import String Ascii List ZArith Lia Bool Arith DecimalString.
Import ListNotations.
Local Open Scope string_scope.

(** ** C strings *)

Module CStr.

(** The line feed that the format strings write as backslash-n. *)
Definition newline : string := String (ascii_of_nat 10) EmptyString.

(** The first [n] characters of [s]: what a bounded formatter keeps. *)
Fixpoint take (n : nat) (s : string) : string :=
  match n, s with
  | S k, String c r => String c (take k r)
  | _, _ => EmptyString
  end.

(** [s] occurs as a contiguous run of characters of [t]. *)
Fixpoint contains (s t : string) : bool :=
  prefix s t ||
  match t with
  | EmptyString => false
  | String _ r => contains s r
  end.

(** The directive percent-d applied to an [int]. *)
Definition decimal (z : Z) : string := NilZero.string_of_int (Z.to_int z).

(** [split_flush buf] cuts [buf] after its last line feed: the first
    part is what a line-buffered stream hands to the file, the second
    what it keeps. *)
Fixpoint split_flush (buf : string) : string * string :=
  match buf with
  | EmptyString => (EmptyString, EmptyString)
  | String c r =>
      let (out, keep) := split_flush r in
      match out with
      | EmptyString =>
          if Ascii.eqb c (ascii_of_nat 10)
          then (String c EmptyString, keep)
          else (EmptyString, String c keep)
      | _ => (String c out, keep)
      end
  end.

End CStr.

Import CStr.

(** ** The build and the process state *)

(** What the missing headers and the compiler command line fix:
    [strConstants.h] gives the two capacities, the build gives the [DEBUG]
    switch and the spelling of the file-name macro; [now n] is the text
    that [str_strip(friendly_time_string(), linebuffer)] yields at the
    [n]-th reading of the clock (an opaque, already formatted stamp). *)
Record build : Type := {
  LSTR_LENGTH : nat;
  FNAME_LENGTH : nat;
  DEBUG : bool;
  __FILE__ : string;
  now : nat -> string
}.

(** The five static buffers of the file. *)
Inductive slot : Type :=
  | temp_stringA | temp_stringB | temp_stringC | temp_stringD | temp_stringE.

(** A [char *] argument: one of the file's own buffers, or storage of the
    caller (a literal, a local array, [temp_err_string]) holding a string
    that this file never writes. *)
Inductive ptr : Type :=
  | Own (sl : slot)
  | Ext (s : string).

Definition slot_eqb (a b : slot) : bool :=
  match a, b with
  | temp_stringA, temp_stringA | temp_stringB, temp_stringB
  | temp_stringC, temp_stringC | temp_stringD, temp_stringD
  | temp_stringE, temp_stringE => true
  | _, _ => false
  end.

(** Pointer comparison [p == sl]. *)
Definition points_to (p : ptr) (sl : slot) : bool :=
  match p with
  | Own s => slot_eqb s sl
  | Ext _ => false
  end.

Inductive bufmode : Type := _IOFBF | _IOLBF | _IONBF.

Inductive fmode : Type := mode_w | mode_a.

(** An open output stream: the file it writes, its buffering mode and the
    characters not yet handed to the file. *)
Record FILE : Type := {
  f_path : string;
  f_buf : bufmode;
  f_pending : string
}.

Inductive std_stream : Type := stdout | stderr.

Record world : Type := {
  bufA : string; bufB : string; bufC : string; bufD : string; bufE : string;
  logfile : option FILE;            (* static FILE *logfile *)
  latch : bool;                     (* static int latch *)
  disk : string -> option string;   (* files by path *)
  permits : string -> bool;         (* may the path be opened for writing *)
  out_stdout : string;
  out_stderr : string;
  fopen_calls : nat;                (* how many times fopen was called *)
  clock : nat                       (* how many times the clock was read *)
}.

Definition buf (w : world) (sl : slot) : string :=
  match sl with
  | temp_stringA => bufA w | temp_stringB => bufB w | temp_stringC => bufC w
  | temp_stringD => bufD w | temp_stringE => bufE w
  end.

Definition set_buf (sl : slot) (s : string) (w : world) : world :=
  {| bufA := match sl with temp_stringA => s | _ => bufA w end;
     bufB := match sl with temp_stringB => s | _ => bufB w end;
     bufC := match sl with temp_stringC => s | _ => bufC w end;
     bufD := match sl with temp_stringD => s | _ => bufD w end;
     bufE := match sl with temp_stringE => s | _ => bufE w end;
     logfile := logfile w; latch := latch w; disk := disk w;
     permits := permits w; out_stdout := out_stdout w;
     out_stderr := out_stderr w; fopen_calls := fopen_calls w;
     clock := clock w |}.

Definition set_logfile (f : option FILE) (w : world) : world :=
  {| bufA := bufA w; bufB := bufB w; bufC := bufC w; bufD := bufD w;
     bufE := bufE w; logfile := f; latch := latch w; disk := disk w;
     permits := permits w; out_stdout := out_stdout w;
     out_stderr := out_stderr w; fopen_calls := fopen_calls w;
     clock := clock w |}.

Definition set_latch (l : bool) (w : world) : world :=
  {| bufA := bufA w; bufB := bufB w; bufC := bufC w; bufD := bufD w;
     bufE := bufE w; logfile := logfile w; latch := l; disk := disk w;
     permits := permits w; out_stdout := out_stdout w;
     out_stderr := out_stderr w; fopen_calls := fopen_calls w;
     clock := clock w |}.

Definition set_disk (d : string -> option string) (w : world) : world :=
  {| bufA := bufA w; bufB := bufB w; bufC := bufC w; bufD := bufD w;
     bufE := bufE w; logfile := logfile w; latch := latch w; disk := d;
     permits := permits w; out_stdout := out_stdout w;
     out_stderr := out_stderr w; fopen_calls := fopen_calls w;
     clock := clock w |}.

Definition emit (st : std_stream) (s : string) (w : world) : world :=
  {| bufA := bufA w; bufB := bufB w; bufC := bufC w; bufD := bufD w;
     bufE := bufE w; logfile := logfile w; latch := latch w; disk := disk w;
     permits := permits w;
     out_stdout := match st with stdout => out_stdout w ++ s | _ => out_stdout w end;
     out_stderr := match st with stderr => out_stderr w ++ s | _ => out_stderr w end;
     fopen_calls := fopen_calls w; clock := clock w |}.

Definition count_fopen (w : world) : world :=
  {| bufA := bufA w; bufB := bufB w; bufC := bufC w; bufD := bufD w;
     bufE := bufE w; logfile := logfile w; latch := latch w; disk := disk w;
     permits := permits w; out_stdout := out_stdout w;
     out_stderr := out_stderr w; fopen_calls := S (fopen_calls w);
     clock := clock w |}.

Definition tick (w : world) : world :=
  {| bufA := bufA w; bufB := bufB w; bufC := bufC w; bufD := bufD w;
     bufE := bufE w; logfile := logfile w; latch := latch w; disk := disk w;
     permits := permits w; out_stdout := out_stdout w;
     out_stderr := out_stderr w; fopen_calls := fopen_calls w;
     clock := S (clock w) |}.

(** The string a pointer designates in a given state. *)
Definition deref (w : world) (p : ptr) : string :=
  match p with
  | Own sl => buf w sl
  | Ext s => s
  end.

(** The content of a file, an absent file reading as empty. *)
Definition content (d : string -> option string) (path : string) : string :=
  match d path with
  | Some s => s
  | None => EmptyString
  end.

Definition disk_put (path : string) (s : string)
    (d : string -> option string) : string -> option string :=
  fun q => if String.eqb q path then Some s else d q.

(** ** Outcomes and the monad *)

Inductive fault : Type :=
  | buffer_overrun      (* a write past the end of an array *)
  | overlapping_copy    (* a copy between objects that overlap *)
  | uninitialised_read  (* a read of an array nothing was written to *)
  | null_stream.        (* output through a null stream pointer *)

Inductive outcome (A : Type) : Type :=
  | Returns (a : A) (w : world)
  | Exits (status : Z) (w : world)
  | Faults (f : fault)
  | OutOfFuel.

Arguments Returns {A} a w.
Arguments Exits {A} status w.
Arguments Faults {A} f.
Arguments OutOfFuel {A}.

Definition M (A : Type) : Type := world -> outcome A.

Definition ret {A : Type} (a : A) : M A := fun w => Returns a w.

Definition bind {A B : Type} (c : M A) (k : A -> M B) : M B :=
  fun w =>
    match c w with
    | Returns a w' => k a w'
    | Exits st w' => Exits st w'
    | Faults f => Faults f
    | OutOfFuel => OutOfFuel
    end.

Declare Scope c_scope.
Delimit Scope c_scope with C.
Notation "x <- c ;; k" := (bind c (fun x => k))
  (at level 61, c at next level, right associativity) : c_scope.
Notation "c ;; k" := (bind c (fun _ => k))
  (at level 61, right associativity) : c_scope.
Local Open Scope c_scope.

Definition read {A : Type} (f : world -> A) : M A := fun w => Returns (f w) w.
Definition modify (f : world -> world) : M unit := fun w => Returns tt (f w).
Definition crash {A : Type} (f : fault) : M A := fun _ => Faults f.

(** ** The C library, as far as the file uses it *)

Section Program.

Variable b : build.

(** Every static buffer is declared with [LSTR_LENGTH] characters. *)
Definition capacity (sl : slot) : nat := LSTR_LENGTH b.

(** [strcpy(dst, src)]: the characters of [src] and the terminating
    zero are written, whatever the size of [dst]. A copy of a buffer onto
    itself is a copy between objects that overlap, which C leaves
    undefined. *)
Definition strcpy (dst : slot) (src : ptr) : M unit :=
  if points_to src dst then crash overlapping_copy else
  s <- read (fun w => deref w src) ;;
  if (String.length s <? capacity dst)%nat
  then modify (set_buf dst s)
  else crash buffer_overrun.

(** [snprintf(dst, n, ...)] with the text the format expands to: at most
    [n - 1] characters and the terminating zero are written; nothing
    at all when [n] is zero. *)
Definition snprintf (dst : slot) (n : nat) (text : string) : M unit :=
  match n with
  | O => ret tt
  | S k =>
      if (String.length (take k text) <? capacity dst)%nat
      then modify (set_buf dst (take k text))
      else crash buffer_overrun
  end.

(** The same call on a fresh local array of [n] characters; the result
    is the string the array then holds. *)
Definition snprintf_local (n : nat) (text : string) : M string :=
  match n with
  | O => crash uninitialised_read
  | S k => ret (take k text)
  end.

Definition fputs (s : string) (st : std_stream) : M unit :=
  modify (emit st s).

(** [fopen(path, mode)]: on success the file exists afterwards, emptied
    by mode w and kept by mode a; the new stream is fully buffered. *)
Definition fopen (path : string) (m : fmode) : M (option FILE) :=
  modify count_fopen ;;
  ok <- read (fun w => permits w path) ;;
  if ok then
    modify (fun w =>
      set_disk (disk_put path
                  match m with
                  | mode_w => EmptyString
                  | mode_a => content (disk w) path
                  end (disk w)) w) ;;
    ret (Some {| f_path := path; f_buf := _IOFBF; f_pending := EmptyString |})
  else ret None.

Definition setvbuf (f : FILE) (m : bufmode) : FILE :=
  {| f_path := f_path f; f_buf := m; f_pending := f_pending f |}.

(** Writing [text] to a stream: what leaves the buffer depends on the
    buffering mode; the rest stays pending. *)
Definition stream_write (f : FILE) (text : string) : string * FILE :=
  let all := f_pending f ++ text in
  let (out, keep) :=
    match f_buf f with
    | _IONBF => (all, EmptyString)
    | _IOLBF => split_flush all
    | _IOFBF => (EmptyString, all)
    end in
  (out, {| f_path := f_path f; f_buf := f_buf f; f_pending := keep |}).

(** Handing [out] to the file at [path]; no characters, no write. *)
Definition disk_append (path out : string) (w : world) : world :=
  match out with
  | EmptyString => w
  | _ => set_disk (disk_put path (content (disk w) path ++ out) (disk w)) w
  end.

(** [fprintf(logfile, ...)] with the text the format expands to. *)
Definition fprintf_logfile (text : string) : M unit :=
  lf <- read logfile ;;
  match lf with
  | None => crash null_stream
  | Some f =>
      let (out, f') := stream_write f text in
      modify (fun w => set_logfile (Some f') (disk_append (f_path f) out w))
  end.

(** [fflush] of the log stream, if there is one with pending output. *)
Definition fflush_logfile (w : world) : world :=
  match logfile w with
  | None => w
  | Some f =>
      match f_pending f with
      | EmptyString => w
      | p =>
          set_logfile
            (Some {| f_path := f_path f; f_buf := f_buf f;
                     f_pending := EmptyString |})
            (disk_append (f_path f) p w)
      end
  end.

(** [exit(status)]: open streams are flushed, the process ends. *)
Definition exit {A : Type} (status : Z) : M A :=
  fun w => Exits status (fflush_logfile w).

(** The stamp [str_strip(friendly_time_string(), linebuffer)]. *)
Definition friendly_time_string : M string :=
  t <- read (fun w => now b (clock w)) ;;
  modify tick ;;
  ret t.

(** [fread(ptr, size, nmemb, stream)] on a source that still yields
    [src]: the number of complete elements read, the bytes stored and
    what the source has left. *)
Definition fread (size nmemb : nat) (src : list Byte.byte)
    : nat * list Byte.byte * list Byte.byte :=
  let got := firstn (size * nmemb) src in
  ((if size =? 0 then 0 else List.length got / size)%nat,
   got, skipn (size * nmemb) src).

(** ** The functions of errorReport.c *)

(** [ephem_error], over the logger it calls. *)
Definition ephem_error_with (ephem_log : ptr -> M unit) (msg : ptr) : M unit :=
  msg <- (if negb (points_to msg temp_stringA) && negb (points_to msg temp_stringB)
          then strcpy temp_stringA msg ;; ret (Own temp_stringA)
          else ret msg) ;;
  (if DEBUG b then
     m <- read (fun w => deref w msg) ;;
     snprintf temp_stringC (FNAME_LENGTH b) ("Error: " ++ m) ;;
     ephem_log (Own temp_stringC)
   else ret tt) ;;
  m <- read (fun w => deref w msg) ;;
  snprintf temp_stringC (FNAME_LENGTH b) ("Error: " ++ m ++ newline) ;;
  c <- read bufC ;;
  fputs c stderr.

(** [ephem_fatal], over the logger it calls. *)
Definition ephem_fatal_with (ephem_log : ptr -> M unit)
    (file : ptr) (line : Z) (msg : ptr) : M unit :=
  (if negb (points_to msg temp_stringE) then strcpy temp_stringE msg else ret tt) ;;
  f <- read (fun w => deref w file) ;;
  introline <- snprintf_local (FNAME_LENGTH b)
                 ("Fatal Error encountered in " ++ f ++ " at line "
                  ++ decimal line ++ ":") ;;
  ephem_error_with ephem_log (Ext introline) ;;
  ephem_error_with ephem_log (Own temp_stringE) ;;
  (if DEBUG b then ephem_log (Ext "Terminating with error condition 1.")
   else ret tt) ;;
  exit 1.

(** [ephem_warning], over the logger it calls. *)
Definition ephem_warning_with (ephem_log : ptr -> M unit) (msg : ptr) : M unit :=
  (if negb (points_to msg temp_stringA) then strcpy temp_stringA msg else ret tt) ;;
  (if DEBUG b then
     a <- read bufA ;;
     snprintf temp_stringC (FNAME_LENGTH b) ("Warning: " ++ a) ;;
     ephem_log (Own temp_stringC)
   else ret tt) ;;
  a <- read bufA ;;
  snprintf temp_stringC (FNAME_LENGTH b) ("Warning: " ++ a ++ newline) ;;
  c <- read bufC ;;
  fputs c stderr.

(** [ephem_report], over the logger it calls. *)
Definition ephem_report_with (ephem_log : ptr -> M unit) (msg : ptr) : M unit :=
  (if negb (points_to msg temp_stringA) then strcpy temp_stringA msg else ret tt) ;;
  (if DEBUG b then
     a <- read bufA ;;
     snprintf temp_stringC (FNAME_LENGTH b) ("Reporting: " ++ a) ;;
     ephem_log (Own temp_stringC)
   else ret tt) ;;
  a <- read bufA ;;
  snprintf temp_stringC (FNAME_LENGTH b) (a ++ newline) ;;
  c <- read bufC ;;
  fputs c stdout.

(** [ephem_log]. Its call of [ephem_fatal] comes back into [ephem_log]
    through [ephem_error]; the recursion is on [fuel]. *)
Fixpoint ephem_log (fuel : nat) (msg : ptr) : M unit :=
  match fuel with
  | O => fun _ => OutOfFuel
  | S fuel' =>
      l <- read latch ;;
      if l then ret tt else
      modify (set_latch true) ;;
      lf <- read logfile ;;
      match lf with
      | None =>
          f <- fopen "ephem.log" mode_w ;;
          modify (set_logfile f) ;;
          match f with
          | None =>
              ephem_fatal_with (ephem_log fuel') (Ext (__FILE__ b)) 102
                (Ext "Could not open log file to write.") ;;
              exit 1
          | Some f => modify (set_logfile (Some (setvbuf f _IOLBF)))
          end
      | Some _ => ret tt
      end ;;
      (if negb (points_to msg temp_stringD) then strcpy temp_stringD msg else ret tt) ;;
      t <- friendly_time_string ;;
      d <- read bufD ;;
      fprintf_logfile ("[" ++ t ++ "] " ++ d ++ newline) ;;
      modify (set_latch false)
  end.

Definition ephem_error (fuel : nat) : ptr -> M unit :=
  ephem_error_with (ephem_log fuel).

Definition ephem_fatal (fuel : nat) : ptr -> Z -> ptr -> M unit :=
  ephem_fatal_with (ephem_log fuel).

Definition ephem_warning (fuel : nat) : ptr -> M unit :=
  ephem_warning_with (ephem_log fuel).

Definition ephem_report (fuel : nat) : ptr -> M unit :=
  ephem_report_with (ephem_log fuel).

(** [dcffread]: the bytes stored through [ptr] and the rest of the
    source are its result. *)
Definition dcffread (fuel : nat) (size nmemb : nat) (src : list Byte.byte)
    : M (list Byte.byte * list Byte.byte) :=
  let '(n, got, rest) := fread size nmemb src in
  (if negb (n =? nmemb)%nat
   then ephem_fatal fuel (Ext (__FILE__ b)) 114 (Ext "file read fail")
   else ret tt) ;;
  ret (got, rest).

End Program.

(** ** What a run leaves behind

    The states the functions reach when no array is overrun, written
    out once so that the run lemmas below can name them. *)

(** A string that one of the static buffers can hold, its terminating
    zero included. *)
Definition fits (b : build) (s : string) : Prop :=
  String.length s < LSTR_LENGTH b.

(** The short capacity is a real one and not above the long one. *)
Definition formats_fit (b : build) : Prop :=
  0 < FNAME_LENGTH b <= LSTR_LENGTH b.

(** A build whose buffers also hold the longest literal the file copies
    into one of them. *)
Definition build_ok (b : build) : Prop :=
  formats_fit b /\ fits b "Terminating with error condition 1.".

(** The log stream as [ephem_log] sets it up. *)
Definition log_stream : FILE :=
  {| f_path := "ephem.log"; f_buf := _IOLBF; f_pending := "" |}.

(** The log stream, when open, is the one [ephem_log] set up and has
    nothing pending. *)
Definition sink_ok (w : world) : Prop :=
  match logfile w with
  | None => True
  | Some f => f = log_stream
  end.

(** A call of [ephem_log] that is not latched out can get at its file. *)
Definition sink_usable (w : world) : Prop :=
  logfile w <> None \/ permits w "ephem.log" = true.

(** A logger call that is latched out or can get at its file, if the
    build logs at all. *)
Definition calm (b : build) (w : world) : Prop :=
  DEBUG b = true -> latch w = true \/ sink_usable w.

(** A logger call that has to open the file and cannot. *)
Definition stuck (b : build) (w : world) : Prop :=
  DEBUG b = true /\ latch w = false /\ logfile w = None /\
  permits w "ephem.log" = false.

(** The state between two calls from outside: no log write under way,
    the log stream as [ephem_log] leaves it, and a log file that can be
    had if the build logs at all. *)
Definition at_rest (b : build) (w : world) : Prop :=
  latch w = false /\ sink_ok w /\ (DEBUG b = true -> sink_usable w).

(** Every static buffer holds a string within its capacity. *)
Definition buffers_ok (b : build) (w : world) : Prop :=
  forall sl, fits b (buf w sl).

(** What [snprintf(temp_stringC, FNAME_LENGTH, ...)] keeps of a text. *)
Definition formatted (b : build) (text : string) : string :=
  take (FNAME_LENGTH b - 1) text.

(** A line of the log file: the stamp of the [n]-th clock reading, then
    the text. *)
Definition stamped (b : build) (n : nat) (text : string) : string :=
  "[" ++ now b n ++ "] " ++ text ++ newline.

(** What the log file holds as far as the process is concerned: nothing
    before the file is opened (opening empties it), its content after. *)
Definition log_base (w : world) : string :=
  match logfile w with
  | Some _ => content (disk w) "ephem.log"
  | None => ""
  end.

(** The line [ephem_log] writes for [text] in state [w]. *)
Definition log_line (b : build) (w : world) (text : string) : string :=
  "[" ++ now b (clock w) ++ "] " ++ text ++ newline.

(** After the lazy opening of the log file has succeeded. *)
Definition opened (w : world) : world :=
  match logfile w with
  | Some _ => w
  | None =>
      set_logfile (Some log_stream)
        (set_disk (disk_put "ephem.log" "" (disk w)) (count_fopen w))
  end.

(** After the copy into [temp_stringD], the write and the release of the
    latch. *)
Definition written (b : build) (text : string) (w : world) : world :=
  match logfile w with
  | None => w
  | Some f =>
      let (out, f') := stream_write f (log_line b w text) in
      set_latch false
        (set_logfile (Some f')
           (disk_append (f_path f) out (tick (set_buf temp_stringD text w))))
  end.

(** After a whole call of [ephem_log] that wrote its line. *)
Definition logged (b : build) (text : string) (w : world) : world :=
  written b text (opened (set_latch true w)).

(** After the mirroring step of an emitter: nothing without [DEBUG], only
    the formatting when latched out, else the formatting and the line. *)
Definition mirrored (b : build) (text : string) (w : world) : world :=
  if DEBUG b then
    if latch w
    then set_buf temp_stringC (formatted b text) w
    else logged b (formatted b text) (set_buf temp_stringC (formatted b text) w)
  else w.

(** After the formatting and the [fputs] that end an emitter. *)
Definition printed (b : build) (st : std_stream) (text : string) (w : world) : world :=
  emit st (formatted b text) (set_buf temp_stringC (formatted b text) w).

(** After the message intake of [ephem_error]. *)
Definition taken_by_error (msg : ptr) (w : world) : world :=
  if negb (points_to msg temp_stringA) && negb (points_to msg temp_stringB)
  then set_buf temp_stringA (deref w msg) w
  else w.

(** After the message intake of an emitter whose slot is [sl]. *)
Definition taken (sl : slot) (msg : ptr) (w : world) : world :=
  if negb (points_to msg sl) then set_buf sl (deref w msg) w else w.

(** After a whole call of [ephem_error] that came back. *)
Definition error_done (b : build) (msg : ptr) (w : world) : world :=
  printed b stderr ("Error: " ++ deref w msg ++ newline)
    (mirrored b ("Error: " ++ deref w msg) (taken_by_error msg w)).

(** After a whole call of [ephem_warning] that came back. *)
Definition warning_done (b : build) (msg : ptr) (w : world) : world :=
  printed b stderr ("Warning: " ++ deref w msg ++ newline)
    (mirrored b ("Warning: " ++ deref w msg) (taken temp_stringA msg w)).

(** After a whole call of [ephem_report] that came back. *)
Definition report_done (b : build) (msg : ptr) (w : world) : world :=
  printed b stdout (deref w msg ++ newline)
    (mirrored b ("Reporting: " ++ deref w msg) (taken temp_stringA msg w)).

(** The location line of [ephem_fatal], as the local array holds it. *)
Definition introline (b : build) (file : string) (line : Z) : string :=
  formatted b ("Fatal Error encountered in " ++ file ++ " at line "
               ++ decimal line ++ ":").

(** The state in which a call of [ephem_fatal] ends the process, when
    none of its log writes has to open a file that cannot be opened. *)
Definition fatal_done (b : build) (file : ptr) (line : Z) (msg : ptr)
    (w : world) : world :=
  let w1 := taken temp_stringE msg w in
  let w2 := error_done b (Ext (introline b (deref w1 file) line)) w1 in
  let w3 := error_done b (Own temp_stringE) w2 in
  let w4 := if DEBUG b
            then if latch w3 then w3
                 else logged b "Terminating with error condition 1." w3
            else w3 in
  fflush_logfile w4.

(** The state in which [ephem_log] ends the process when its file cannot
    be opened. *)
Definition open_failed (b : build) (w : world) : world :=
  fatal_done b (Ext (__FILE__ b)) 102 (Ext "Could not open log file to write.")
    (set_logfile None (count_fopen (set_latch true w))).

(** ** What a call is observed to do *)

Definition stream_out (st : std_stream) (w : world) : string :=
  match st with
  | stdout => out_stdout w
  | stderr => out_stderr w
  end.

Definition other (st : std_stream) : std_stream :=
  match st with
  | stdout => stderr
  | stderr => stdout
  end.

(** The outcome [o] of a call from state [w] is a return after [line]
    went to [st], nothing to the other stream, and, in a build with
    [DEBUG], one line stamped with the time and reading [logtext] went
    to the log file; without [DEBUG] the log is not touched. *)
Definition emitted (b : build) (st : std_stream) (line logtext : string)
    (w : world) (o : outcome unit) : Prop :=
  exists w',
    o = Returns tt w' /\
    stream_out st w' = stream_out st w ++ line /\
    stream_out (other st) w' = stream_out (other st) w /\
    if DEBUG b
    then disk w' "ephem.log"
         = Some (log_base w ++ "[" ++ now b (clock w) ++ "] " ++ logtext ++ newline)
         /\ logfile w' = Some log_stream
    else disk w' = disk w /\ logfile w' = logfile w
         /\ fopen_calls w' = fopen_calls w.

(** The sink in [w'], after a call from [w] wrote the line for [text]. *)
Record sink_after (b : build) (text : string) (w w' : world) : Prop := {
  after_latch : latch w' = false;
  after_logfile : logfile w' = Some log_stream;
  after_disk :
    disk w' "ephem.log" = Some (log_base w ++ log_line b w text);
  after_clock : clock w' = S (clock w);
  after_permits : permits w' = permits w;
  after_fopen :
    fopen_calls w' = match logfile w with
                     | Some _ => fopen_calls w
                     | None => S (fopen_calls w)
                     end
}.

(** The call did not come back, and if it ended the process it did so
    with status 1. A fault is a run the C standard gives no meaning. *)
Definition leaves_with_status_1 {A : Type} (o : outcome A) : Prop :=
  match o with
  | Returns _ _ => False
  | Exits st _ => st = 1%Z
  | Faults _ => True
  | OutOfFuel => False
  end.

(** If the call ended the process, it did so with status 1. *)
Definition exit_status_1 {A : Type} (o : outcome A) : Prop :=
  match o with
  | Exits st _ => st = 1%Z
  | OutOfFuel => False
  | _ => True
  end.

(** The computation [c] copies no buffer onto itself, whatever the state
    it starts in. *)
Definition no_self_copy {A : Type} (c : M A) : Prop :=
  forall w, c w <> Faults overlapping_copy.

(** ** Outcomes that keep within the contract

    [triple P c Q]: from a state in [P], the computation [c] does not run
    out of fuel, leaves the process with status 1 if it leaves it, and
    comes back in a state in [Q] if it comes back. *)
Definition triple {A : Type} (P : world -> Prop) (c : M A)
    (Q : A -> world -> Prop) : Prop :=
  forall w, P w ->
    match c w with
    | Returns a w' => Q a w'
    | Exits st _ => st = 1%Z
    | Faults _ => True
    | OutOfFuel => False
    end.

Definition latched (w : world) : Prop := latch w = true.
Definition any_state (w : world) : Prop := True.

(** A predicate on states that the buffers, the streams, the files and
    the clock do not touch. *)
Record stable (P : world -> Prop) : Prop := {
  stable_buf : forall sl s w, P w -> P (set_buf sl s w);
  stable_emit : forall st s w, P w -> P (emit st s w);
  stable_disk : forall d w, P w -> P (set_disk d w);
  stable_logfile : forall f w, P w -> P (set_logfile f w);
  stable_fopen : forall w, P w -> P (count_fopen w);
  stable_tick : forall w, P w -> P (tick w)
}.

(** ** Builds and states to run the functions on *)

(** Two builds with small capacities, with and without [DEBUG]; the
    clock reads t0, t1, ... *)
Definition debug_build : build :=
  {| LSTR_LENGTH := 1024; FNAME_LENGTH := 128; DEBUG := true;
     __FILE__ := "src/coreUtils/errorReport.c";
     now := fun n => "t" ++ decimal (Z.of_nat n) |}.

Definition quiet_build : build :=
  {| LSTR_LENGTH := 1024; FNAME_LENGTH := 128; DEBUG := false;
     __FILE__ := "src/coreUtils/errorReport.c";
     now := fun n => "t" ++ decimal (Z.of_nat n) |}.

(** The state at process start: zeroed statics, nothing written yet; the
    log file may be opened or not, and holds [old] if it exists. *)
Definition boot (writable : bool) (old : option string) : world :=
  {| bufA := ""; bufB := ""; bufC := ""; bufD := ""; bufE := "";
     logfile := None; latch := false;
     disk := fun p => if String.eqb p "ephem.log" then old else None;
     permits := fun _ => writable;
     out_stdout := ""; out_stderr := ""; fopen_calls := 0; clock := 0 |}.

(** The start state with [s] already in [temp_stringA]. *)
Definition holding (s : string) : world :=
  set_buf temp_stringA s (boot true None).

(** A message of [n] letters. *)
Fixpoint filler (n : nat) : string :=
  match n with
  | O => ""
  | S k => String "x" (filler k)
  end.

(** A source that yields thirty bytes and no more. *)
Definition thirty_bytes : list Byte.byte := repeat Byte.x00 30.

(** ** Calls one after the other, as a caller makes them *)

(** Two reads one after the other, as a caller makes them: the second
    continues where the first stopped; the bytes of both are the result. *)
Definition dcffread_twice (b : build) (fuel : nat) (size n1 n2 : nat)
    (src : list Byte.byte) : M (list Byte.byte * list Byte.byte) :=
  r1 <- dcffread b fuel size n1 src ;;
  r2 <- dcffread b fuel size n2 (snd r1) ;;
  ret ((fst r1 ++ fst r2)%list, snd r2).

(** Calls of [ephem_log] one after the other, as a caller makes them,
    each with a message of its own. *)
Fixpoint log_each (b : build) (fuel : nat) (msgs : list string) : M unit :=
  match msgs with
  | [] => ret tt
  | m :: rest => ephem_log b fuel (Ext m) ;; log_each b fuel rest
  end.

(** The lines of the log file for [texts], stamped with the clock
    readings from the [n]-th on. *)
Fixpoint stamped_from (b : build) (n : nat) (texts : list string) : string :=
  match texts with
  | [] => ""
  | t :: rest => stamped b n t ++ stamped_from b (S n) rest
  end.

(** A call of one of the three emitters that come back, with a message
    in storage of the caller. *)
Inductive call : Type :=
  | Error (m : string)
  | Warning (m : string)
  | Report (m : string).

Definition run_call (b : build) (fuel : nat) (c : call) : M unit :=
  match c with
  | Error m => ephem_error b fuel (Ext m)
  | Warning m => ephem_warning b fuel (Ext m)
  | Report m => ephem_report b fuel (Ext m)
  end.

(** Emitter calls one after the other, as a caller makes them. *)
Fixpoint run_calls (b : build) (fuel : nat) (cs : list call) : M unit :=
  match cs with
  | [] => ret tt
  | c :: rest => run_call b fuel c ;; run_calls b fuel rest
  end.

Definition call_text (c : call) : string :=
  match c with Error m | Warning m | Report m => m end.

Definition call_stream (c : call) : std_stream :=
  match c with
  | Report _ => stdout
  | _ => stderr
  end.

(** The line a call sends to its stream, and the text it sends to the
    log, when nothing is cut. *)
Definition call_line (c : call) : string :=
  match c with
  | Error m => "Error: " ++ m ++ newline
  | Warning m => "Warning: " ++ m ++ newline
  | Report m => m ++ newline
  end.

Definition call_log (c : call) : string :=
  match c with
  | Error m => "Error: " ++ m
  | Warning m => "Warning: " ++ m
  | Report m => "Reporting: " ++ m
  end.

Definition stream_eqb (s t : std_stream) : bool :=
  match s, t with
  | stdout, stdout | stderr, stderr => true
  | _, _ => false
  end.

(** What the calls [cs] send to the stream [st], in their order. *)
Fixpoint sent_to (st : std_stream) (cs : list call) : string :=
  match cs with
  | [] => ""
  | c :: rest =>
      (if stream_eqb (call_stream c) st then call_line c else "")
      ++ sent_to st rest
  end.

(** What one call that came back did. *)
Record stepped (b : build) (c : call) (w w' : world) : Prop := {
  step_rest : at_rest b w';
  step_stream :
    stream_out (call_stream c) w'
    = stream_out (call_stream c) w ++ call_line c;
  step_other :
    stream_out (other (call_stream c)) w'
    = stream_out (other (call_stream c)) w;
  step_sink :
    if DEBUG b then sink_after b (call_log c) w w'
    else logfile w' = logfile w /\ disk w' = disk w /\ clock w' = clock w /\
         fopen_calls w' = fopen_calls w
}.

(** What the calls left, seen from the state before them. *)
Definition calls_done (b : build) (cs : list call) (w w' : world) : Prop :=
  at_rest b w' /\
  out_stdout w' = out_stdout w ++ sent_to stdout cs /\
  out_stderr w' = out_stderr w ++ sent_to stderr cs /\
  if DEBUG b
  then disk w' "ephem.log"
       = Some (log_base w ++ stamped_from b (clock w) (map call_log cs)) /\
       fopen_calls w' = match logfile w with
                        | Some _ => fopen_calls w
                        | None => S (fopen_calls w)
                        end
  else disk w' = disk w /\ logfile w' = logfile w /\
       fopen_calls w' = fopen_calls w.

(** The two lines the failed opening of the log file puts on stderr. *)
Definition log_failure_lines (b : build) : string :=
  formatted b ("Error: " ++ introline b (__FILE__ b) 102 ++ newline)
  ++ formatted b ("Error: Could not open log file to write." ++ newline).

(** The outcome [o] of a call from [w] is the end of the process with
    status 1, after stderr got the two lines about the log file and
    nothing else, and stdout nothing. *)
Definition ends_on_log_failure (b : build) (w : world) (o : outcome unit) : Prop :=
  exists w',
    o = Exits 1 w' /\
    out_stdout w' = out_stdout w /\
    out_stderr w' = out_stderr w ++ log_failure_lines b.

(** The outcome [o] of a call from [w] is a return that left the log
    alone: file, stream, latch, clock, count of [fopen] calls and
    [temp_stringD] are as before. *)
Definition comes_back_without_logging (w : world) (o : outcome unit) : Prop :=
  exists w',
    o = Returns tt w' /\
    disk w' = disk w /\ logfile w' = logfile w /\ latch w' = latch w /\
    clock w' = clock w /\ fopen_calls w' = fopen_calls w /\
    bufD w' = bufD w.

(** * Facts about strings *)

Lemma append_assoc (s t u : string) : (s ++ t) ++ u = s ++ (t ++ u).
Proof. induction s as [|c s IH]; simpl; [reflexivity | now rewrite IH]. Qed.

Lemma length_append (s t : string) :
  String.length (s ++ t) = String.length s + String.length t.
Proof. induction s as [|c s IH]; simpl; [reflexivity | now rewrite IH]. Qed.

Lemma length_take (n : nat) (s : string) :
  String.length (take n s) = Nat.min n (String.length s).
Proof.
  revert s; induction n as [|n IH]; intros [|c s]; simpl; try reflexivity.
  now rewrite IH.
Qed.

Lemma length_take_le (n : nat) (s : string) : String.length (take n s) <= n.
Proof. rewrite length_take; lia. Qed.

Lemma take_all (n : nat) (s : string) :
  String.length s <= n -> take n s = s.
Proof.
  revert s; induction n as [|n IH]; intros [|c s]; simpl; intros H;
    try reflexivity; try lia.
  now rewrite IH by lia.
Qed.

Lemma take_prefix (n : nat) (s : string) : prefix (take n s) s = true.
Proof.
  revert s; induction n as [|n IH]; intros [|c s]; simpl; try reflexivity.
  destruct (ascii_dec c c) as [_|ne]; [apply IH | now elim ne].
Qed.

Lemma prefix_append (s t : string) : prefix s (s ++ t) = true.
Proof.
  induction s as [|c s IH]; simpl; [now destruct t|].
  destruct (ascii_dec c c) as [_|ne]; [exact IH | now elim ne].
Qed.

Lemma contains_prefix (s t : string) :
  prefix s t = true -> contains s t = true.
Proof. intros H; destruct t; cbn [contains]; rewrite H; reflexivity. Qed.

Lemma contains_append (p s t : string) : contains s (p ++ s ++ t) = true.
Proof.
  induction p as [|c p IH]; simpl.
  - apply contains_prefix, prefix_append.
  - rewrite IH. apply orb_true_r.
Qed.

Lemma split_flush_line (s : string) :
  split_flush (s ++ newline) = (s ++ newline, "").
Proof.
  induction s as [|c s IH]; simpl; [reflexivity|].
  rewrite IH. destruct s; reflexivity.
Qed.

(** * Outcomes within the contract *)

Lemma latched_stable : stable latched.
Proof. split; intros; assumption. Qed.

Lemma any_state_stable : stable any_state.
Proof. split; intros; exact I. Qed.

(** The rules of [triple], one for each way a computation is built. *)

Lemma triple_bind {A B} P (c : M A) (k : A -> M B) Q R :
  triple P c Q -> (forall a, triple (Q a) (k a) R) -> triple P (bind c k) R.
Proof.
  intros Hc Hk w HP. unfold bind. specialize (Hc w HP).
  destruct (c w) as [a w'| | |]; auto. apply (Hk a w' Hc).
Qed.

Lemma triple_ret {A} (P : world -> Prop) (a : A) : triple P (ret a) (fun _ => P).
Proof. intros w HP; exact HP. Qed.

Lemma triple_read {A} (P : world -> Prop) (f : world -> A) :
  triple P (read f) (fun _ => P).
Proof. intros w HP; exact HP. Qed.

Lemma triple_modify (P Q : world -> Prop) (f : world -> world) :
  (forall w, P w -> Q (f w)) -> triple P (modify f) (fun _ => Q).
Proof. intros H w HP; exact (H w HP). Qed.

Lemma triple_crash {A} (P : world -> Prop) (f : fault) (Q : A -> world -> Prop) :
  triple P (crash f) Q.
Proof. intros w HP; exact I. Qed.

Lemma triple_exit {A} (P : world -> Prop) (Q : A -> world -> Prop) :
  triple P (exit 1) Q.
Proof. intros w HP; reflexivity. Qed.

Section Library.
Variable P : world -> Prop.
Hypothesis HP : stable P.

Lemma triple_strcpy b dst src : triple P (strcpy b dst src) (fun _ => P).
Proof.
  intros w Hw. unfold strcpy, bind, read.
  destruct (points_to src dst); [exact I|].
  destruct (String.length (deref w src) <? capacity b dst)%nat;
    [exact (stable_buf P HP _ _ w Hw) | exact I].
Qed.

Lemma triple_snprintf b dst n text : triple P (snprintf b dst n text) (fun _ => P).
Proof.
  intros w Hw. unfold snprintf. destruct n as [|k]; [exact Hw|].
  destruct (String.length (take k text) <? capacity b dst)%nat;
    [exact (stable_buf P HP _ _ w Hw) | exact I].
Qed.

Lemma triple_snprintf_local n text : triple P (snprintf_local n text) (fun _ => P).
Proof. intros w Hw. destruct n; [exact I | exact Hw]. Qed.

Lemma triple_fputs s st : triple P (fputs s st) (fun _ => P).
Proof. intros w Hw. exact (stable_emit P HP _ _ w Hw). Qed.

Lemma triple_fopen path m : triple P (fopen path m) (fun _ => P).
Proof.
  intros w Hw. unfold fopen, bind, modify, read, ret. cbn.
  destruct (permits w path); cbn.
  - apply (stable_disk P HP), (stable_fopen P HP), Hw.
  - apply (stable_fopen P HP), Hw.
Qed.

Lemma triple_time b : triple P (friendly_time_string b) (fun _ => P).
Proof. intros w Hw. exact (stable_tick P HP w Hw). Qed.

Lemma stable_disk_append path out w : P w -> P (disk_append path out w).
Proof.
  intros Hw. unfold disk_append. destruct out; [exact Hw|].
  apply (stable_disk P HP), Hw.
Qed.

Lemma triple_fprintf text : triple P (fprintf_logfile text) (fun _ => P).
Proof.
  intros w Hw. unfold fprintf_logfile, bind, read.
  destruct (logfile w) as [f|]; [|exact I].
  destruct (stream_write f text) as [out f'].
  apply (stable_logfile P HP), stable_disk_append, Hw.
Qed.

Ltac keeps log_keeps :=
  repeat first
    [ apply triple_ret | apply triple_read | apply triple_crash
    | apply triple_exit | apply triple_snprintf_local
    | apply log_keeps
    | apply triple_strcpy | apply triple_snprintf | apply triple_fputs
    | apply triple_fopen | apply triple_time | apply triple_fprintf
    | apply triple_modify; intros ? ?; apply (stable_logfile P HP); assumption
    | match goal with
      | |- triple _ (if ?c then _ else _) _ => destruct c
      | |- triple _ (bind _ _) _ =>
          eapply triple_bind with (Q := fun _ => P); [ | intros ? ]
      end ].

Variable b : build.
Variable log : ptr -> M unit.
Hypothesis log_keeps : forall p, triple P (log p) (fun _ => P).

Lemma ephem_error_keeps msg : triple P (ephem_error_with b log msg) (fun _ => P).
Proof. unfold ephem_error_with; keeps log_keeps. Qed.

Lemma ephem_warning_keeps msg : triple P (ephem_warning_with b log msg) (fun _ => P).
Proof. unfold ephem_warning_with; keeps log_keeps. Qed.

Lemma ephem_report_keeps msg : triple P (ephem_report_with b log msg) (fun _ => P).
Proof. unfold ephem_report_with; keeps log_keeps. Qed.

Lemma ephem_fatal_leaves file line msg (Q : unit -> world -> Prop) :
  triple P (ephem_fatal_with b log file line msg) Q.
Proof.
  unfold ephem_fatal_with.
  eapply triple_bind with (Q := fun _ => P); [ keeps log_keeps | intros _ ].
  eapply triple_bind with (Q := fun _ => P); [ keeps log_keeps | intros f ].
  eapply triple_bind with (Q := fun _ => P); [ keeps log_keeps | intros intro ].
  eapply triple_bind with (Q := fun _ => P); [ apply ephem_error_keeps | intros _ ].
  eapply triple_bind with (Q := fun _ => P); [ apply ephem_error_keeps | intros _ ].
  eapply triple_bind with (Q := fun _ => P); [ keeps log_keeps | intros _ ].
  apply triple_exit.
Qed.
End Library.

Lemma ephem_log_latched b n msg w :
  latch w = true -> ephem_log b (S n) msg w = Returns tt w.
Proof.
  intros H. cbn. unfold bind, read. rewrite H. reflexivity.
Qed.

Lemma ephem_log_keeps_latched b n msg :
  triple latched (ephem_log b (S n) msg) (fun _ => latched).
Proof. intros w H. rewrite (ephem_log_latched _ _ _ _ H). exact H. Qed.

Lemma ephem_log_tame b n msg :
  triple any_state (ephem_log b (S (S n)) msg) (fun _ => any_state).
Proof.
  change (ephem_log b (S (S n)) msg) with
    (l <- read latch ;;
     if l then ret tt else
     modify (set_latch true) ;;
     lf <- read logfile ;;
     match lf with
     | None =>
         f <- fopen "ephem.log" mode_w ;;
         modify (set_logfile f) ;;
         match f with
         | None =>
             ephem_fatal_with b (ephem_log b (S n)) (Ext (__FILE__ b)) 102
               (Ext "Could not open log file to write.") ;;
             exit 1
         | Some f => modify (set_logfile (Some (setvbuf f _IOLBF)))
         end
     | Some _ => ret tt
     end ;;
     (if negb (points_to msg temp_stringD) then strcpy b temp_stringD msg else ret tt) ;;
     t <- friendly_time_string b ;;
     d <- read bufD ;;
     fprintf_logfile ("[" ++ t ++ "] " ++ d ++ newline) ;;
     modify (set_latch false))%C.
  pose proof latched_stable as HL.
  eapply triple_bind; [apply triple_read|intros l].
  destruct l; [apply triple_ret|].
  eapply triple_bind with (Q := fun _ => latched);
    [apply triple_modify; reflexivity | intros _].
  eapply triple_bind with (Q := fun _ => latched); [apply triple_read | intros lf].
  eapply triple_bind with (Q := fun _ => latched).
  { destruct lf as [f|]; [apply triple_ret|].
    eapply triple_bind with (Q := fun _ => latched);
      [apply triple_fopen, HL | intros f].
    eapply triple_bind with (Q := fun _ => latched);
      [apply triple_modify; intros w Hw; exact Hw | intros _].
    destruct f as [f|]; [apply triple_modify; intros w Hw; exact Hw|].
    eapply triple_bind with (Q := fun _ => latched); [|intros _; apply triple_exit].
    apply ephem_fatal_leaves; [exact HL|].
    intros p; apply ephem_log_keeps_latched. }
  intros _.
  eapply triple_bind with (Q := fun _ => latched).
  { destruct (negb (points_to msg temp_stringD));
      [apply triple_strcpy, HL | apply triple_ret]. }
  intros _.
  eapply triple_bind with (Q := fun _ => latched); [apply triple_time, HL | intros t].
  eapply triple_bind with (Q := fun _ => latched); [apply triple_read | intros d].
  eapply triple_bind with (Q := fun _ => latched); [apply triple_fprintf, HL | intros _].
  apply triple_modify. intros; exact I.
Qed.

Lemma ephem_fatal_never_returns b n file line msg :
  triple any_state (ephem_fatal b (S (S n)) file line msg) (fun _ _ => False).
Proof.
  apply ephem_fatal_leaves; [exact any_state_stable|].
  intros p; apply ephem_log_tame.
Qed.

(** * The runs of the functions *)

Lemma bind_returns {A B} (c : M A) (k : A -> M B) w a w' :
  c w = Returns a w' -> bind c k w = k a w'.
Proof. unfold bind; intros ->; reflexivity. Qed.

Lemma bind_exits {A B} (c : M A) (k : A -> M B) w st w' :
  c w = Exits st w' -> bind c k w = Exits st w'.
Proof. unfold bind; intros ->; reflexivity. Qed.

Lemma bind_faults {A B} (c : M A) (k : A -> M B) w f :
  c w = Faults f -> bind c k w = Faults f.
Proof. unfold bind; intros ->; reflexivity. Qed.

Lemma fits_formatted b text : formats_fit b -> fits b (formatted b text).
Proof.
  intros [H0 H1]. unfold fits, formatted.
  pose proof (length_take_le (FNAME_LENGTH b - 1) text). lia.
Qed.

Lemma formatted_short b s :
  String.length s < FNAME_LENGTH b -> formatted b s = s.
Proof. intros H. unfold formatted. apply take_all. lia. Qed.

Lemma strcpy_fits b dst src w :
  points_to src dst = false -> fits b (deref w src) ->
  strcpy b dst src w = Returns tt (set_buf dst (deref w src) w).
Proof.
  intros Hp H. unfold strcpy, bind, read, capacity. rewrite Hp.
  apply Nat.ltb_lt in H. rewrite H. reflexivity.
Qed.

Lemma strcpy_overruns b dst src w :
  points_to src dst = false ->
  LSTR_LENGTH b <= String.length (deref w src) ->
  strcpy b dst src w = Faults buffer_overrun.
Proof.
  intros Hp H. unfold strcpy, bind, read, capacity. rewrite Hp.
  apply Nat.ltb_ge in H. rewrite H. reflexivity.
Qed.

Lemma strcpy_onto_itself b sl w :
  strcpy b sl (Own sl) w = Faults overlapping_copy.
Proof. unfold strcpy. destruct sl; reflexivity. Qed.

Lemma snprintf_fits b dst text w :
  formats_fit b ->
  snprintf b dst (FNAME_LENGTH b) text w
  = Returns tt (set_buf dst (formatted b text) w).
Proof.
  intros H. pose proof (fits_formatted b text H) as Hf.
  unfold snprintf, formatted, fits, capacity in *. destruct H as [H0 H1].
  destruct (FNAME_LENGTH b) as [|k]; [lia|].
  replace (S k - 1) with k in * by lia.
  apply Nat.ltb_lt in Hf. rewrite Hf. reflexivity.
Qed.

Lemma snprintf_local_fits b text w :
  formats_fit b ->
  snprintf_local (FNAME_LENGTH b) text w = Returns (formatted b text) w.
Proof.
  intros [H0 H1]. unfold snprintf_local, formatted.
  destruct (FNAME_LENGTH b) as [|k]; [lia|].
  replace (S k - 1) with k by lia. reflexivity.
Qed.

Lemma taken_run b sl msg w :
  fits b (deref w msg) ->
  (if negb (points_to msg sl) then strcpy b sl msg else ret tt) w
  = Returns tt (taken sl msg w).
Proof.
  intros H. unfold taken. destruct (points_to msg sl) eqn:Hp; cbn [negb].
  - reflexivity.
  - apply strcpy_fits; [exact Hp | exact H].
Qed.

Ltac norm :=
  unfold log_stream, setvbuf;
  cbn [bufA bufB bufC bufD bufE logfile latch disk permits out_stdout
       out_stderr fopen_calls clock set_buf set_logfile set_latch set_disk
       emit count_fopen tick f_path f_buf f_pending buf deref points_to
       slot_eqb negb andb] in *.

Lemma ephem_log_writes b n msg w :
  latch w = false -> sink_usable w -> fits b (deref w msg) ->
  ephem_log b (S n) msg w = Returns tt (logged b (deref w msg) w).
Proof.
  intros Hl Hu Hm. apply Nat.ltb_lt in Hm.
  cbn [ephem_log].
  unfold logged, opened, written, friendly_time_string, fprintf_logfile,
    fopen, strcpy, bind, read, modify, ret, capacity, log_line.
  rewrite Hl. norm.
  destruct (logfile w) as [f|] eqn:Hf.
  - destruct msg as [[] | s]; norm; try rewrite Hm; norm; rewrite ?Hf;
      destruct (stream_write _ _) as [out f']; reflexivity.
  - destruct Hu as [Hu|Hu]; [now elim Hu|].
    norm. rewrite Hu.
    destruct msg as [[] | s]; norm; try rewrite Hm; norm;
      destruct (stream_write _ _) as [out f']; reflexivity.
Qed.

(** *** What a log write leaves alone *)

Ltac crush_logged :=
  intros; unfold logged, written, opened;
  repeat match goal with
         | |- context [match logfile ?w with _ => _ end] =>
             let f := fresh "f" in destruct (logfile w) as [f|] eqn:?; norm
         | |- context [let (_, _) := stream_write ?f ?t in _] =>
             let o := fresh "out" in destruct (stream_write f t) as [o ?]; norm
         | |- context [disk_append ?p ?o ?w] =>
             unfold disk_append; destruct o; norm
         end;
  try reflexivity; try discriminate; try congruence.

Lemma logged_buf b t w sl :
  buf (logged b t w) sl = if slot_eqb sl temp_stringD then t else buf w sl.
Proof. destruct sl; crush_logged. Qed.

Lemma logged_stderr b t w : out_stderr (logged b t w) = out_stderr w.
Proof. crush_logged. Qed.

Lemma logged_stdout b t w : out_stdout (logged b t w) = out_stdout w.
Proof. crush_logged. Qed.

Lemma logged_latch b t w : latch (logged b t w) = false.
Proof. crush_logged. Qed.

Lemma logged_permits b t w : permits (logged b t w) = permits w.
Proof. crush_logged. Qed.

Lemma logged_clock b t w : clock (logged b t w) = S (clock w).
Proof. crush_logged. Qed.

Lemma logged_open b t w : logfile (logged b t w) <> None.
Proof. crush_logged. Qed.

Lemma logged_fopen_calls b t w :
  fopen_calls (logged b t w)
  = match logfile w with
    | Some _ => fopen_calls w
    | None => S (fopen_calls w)
    end.
Proof. crush_logged. Qed.

Lemma log_line_ends b w t :
  log_line b w t = ("[" ++ now b (clock w) ++ "] " ++ t) ++ newline.
Proof. unfold log_line. now rewrite !append_assoc. Qed.

Lemma stream_write_line b w t :
  stream_write log_stream (log_line b w t) = (log_line b w t, log_stream).
Proof.
  unfold stream_write, log_stream. cbn [f_pending f_buf f_path append].
  rewrite log_line_ends, split_flush_line. reflexivity.
Qed.

Lemma logged_logfile b t w :
  sink_ok w -> logfile (logged b t w) = Some log_stream.
Proof.
  unfold sink_ok, logged, written, opened. norm.
  destruct (logfile w) as [f|] eqn:Hf; norm.
  - intros ->. rewrite Hf, stream_write_line. reflexivity.
  - intros _. change {| f_path := "ephem.log"; f_buf := _IOLBF; f_pending := "" |}
      with log_stream.
    rewrite stream_write_line. reflexivity.
Qed.

Lemma logged_disk b t w :
  sink_ok w ->
  disk (logged b t w) "ephem.log"
  = Some (match logfile w with
          | Some _ => content (disk w) "ephem.log"
          | None => ""
          end ++ log_line b w t).
Proof.
  unfold sink_ok, logged, written, opened. norm.
  destruct (logfile w) as [f|] eqn:Hf; norm.
  - intros ->. rewrite Hf, stream_write_line. reflexivity.
  - intros _. change {| f_path := "ephem.log"; f_buf := _IOLBF; f_pending := "" |}
      with log_stream.
    rewrite stream_write_line. reflexivity.
Qed.

(** *** The emitters, when they come back *)

Lemma mirror_run b n pfx src w :
  formats_fit b -> calm b w ->
  (if DEBUG b then
     m <- read (fun w => deref w src) ;;
     snprintf b temp_stringC (FNAME_LENGTH b) (pfx ++ m) ;;
     ephem_log b (S n) (Own temp_stringC)
   else ret tt) w
  = Returns tt (mirrored b (pfx ++ deref w src) w).
Proof.
  intros Hb Hc. unfold mirrored, calm in *.
  destruct (DEBUG b); [|reflexivity].
  unfold bind at 1, read at 1.
  rewrite (bind_returns _ _ _ _ _ (snprintf_fits b _ _ w Hb)).
  destruct (latch w) eqn:Hl.
  - apply ephem_log_latched. exact Hl.
  - destruct (Hc eq_refl) as [H|H]; [discriminate|].
    rewrite ephem_log_writes; [reflexivity | exact Hl | exact H |].
    apply fits_formatted, Hb.
Qed.

Lemma print_run b st text w :
  formats_fit b ->
  (snprintf b temp_stringC (FNAME_LENGTH b) text ;;
   c <- read bufC ;; fputs c st) w
  = Returns tt (printed b st text w).
Proof.
  intros Hb. rewrite (bind_returns _ _ _ _ _ (snprintf_fits b _ _ w Hb)).
  reflexivity.
Qed.

Lemma mirrored_buf b t w sl :
  sl <> temp_stringC -> sl <> temp_stringD ->
  buf (mirrored b t w) sl = buf w sl.
Proof.
  intros HC HD. unfold mirrored.
  destruct (DEBUG b); [|reflexivity].
  destruct (latch w).
  - destruct sl; try reflexivity; congruence.
  - rewrite logged_buf. destruct sl; try reflexivity; congruence.
Qed.

Lemma ephem_error_run b n msg w :
  formats_fit b -> fits b (deref w msg) -> calm b w ->
  ephem_error b (S n) msg w = Returns tt (error_done b msg w).
Proof.
  intros Hb Hm Hc. unfold ephem_error, ephem_error_with, error_done.
  set (w1 := taken_by_error msg w).
  set (msg' := if negb (points_to msg temp_stringA) && negb (points_to msg temp_stringB)
               then Own temp_stringA else msg).
  assert (Htake :
    (if negb (points_to msg temp_stringA) && negb (points_to msg temp_stringB)
     then strcpy b temp_stringA msg ;; ret (Own temp_stringA)
     else ret msg) w = Returns msg' w1).
  { unfold msg', w1, taken_by_error.
    destruct (points_to msg temp_stringA) eqn:HA; cbn [negb andb];
      [reflexivity|].
    destruct (negb (points_to msg temp_stringB)); [|reflexivity].
    rewrite (bind_returns _ _ _ _ _ (strcpy_fits b _ _ w HA Hm)). reflexivity. }
  rewrite (bind_returns _ _ _ _ _ Htake).
  assert (Hd1 : deref w1 msg' = deref w msg).
  { unfold msg', w1, taken_by_error.
    destruct msg as [[]|s]; reflexivity. }
  assert (Hc1 : calm b w1).
  { unfold calm, sink_usable, w1, taken_by_error in *.
    destruct (negb (points_to msg temp_stringA) && negb (points_to msg temp_stringB));
      exact Hc. }
  rewrite (bind_returns _ _ _ _ _ (mirror_run b n "Error: " msg' w1 Hb Hc1)).
  rewrite Hd1.
  unfold bind at 1, read at 1.
  assert (Hd2 : deref (mirrored b ("Error: " ++ deref w msg) w1) msg' = deref w msg).
  { rewrite <- Hd1 at 2. unfold msg'.
    destruct msg as [[]|s]; cbn [points_to slot_eqb negb andb deref];
      try (apply mirrored_buf; discriminate). }
  rewrite Hd2. apply print_run, Hb.
Qed.

Lemma mirrored_bufA b t w : bufA (mirrored b t w) = bufA w.
Proof. apply (mirrored_buf b t w temp_stringA); discriminate. Qed.

Lemma mirrored_bufE b t w : bufE (mirrored b t w) = bufE w.
Proof. apply (mirrored_buf b t w temp_stringE); discriminate. Qed.

Lemma taken_calm b sl msg w : calm b w -> calm b (taken sl msg w).
Proof.
  unfold calm, sink_usable, taken.
  destruct (negb (points_to msg sl)); intros H; exact H.
Qed.

Lemma taken_own sl msg w : buf (taken sl msg w) sl = deref w msg.
Proof.
  unfold taken. destruct msg as [s|s]; [|destruct sl; reflexivity].
  destruct s, sl; reflexivity.
Qed.

Lemma ephem_warning_run b n msg w :
  formats_fit b -> fits b (deref w msg) -> calm b w ->
  ephem_warning b (S n) msg w = Returns tt (warning_done b msg w).
Proof.
  intros Hb Hm Hc. unfold ephem_warning, ephem_warning_with, warning_done.
  rewrite (bind_returns _ _ _ _ _ (taken_run b temp_stringA msg w Hm)).
  set (w1 := taken temp_stringA msg w).
  assert (Hd1 : bufA w1 = deref w msg) by apply (taken_own temp_stringA).
  eapply eq_trans.
  { apply bind_returns.
    apply (mirror_run b n "Warning: " (Own temp_stringA) w1 Hb).
    apply taken_calm, Hc. }
  cbn [deref buf]. rewrite Hd1.
  unfold bind at 1, read at 1.
  rewrite mirrored_bufA, Hd1. apply print_run, Hb.
Qed.

Lemma ephem_report_run b n msg w :
  formats_fit b -> fits b (deref w msg) -> calm b w ->
  ephem_report b (S n) msg w = Returns tt (report_done b msg w).
Proof.
  intros Hb Hm Hc. unfold ephem_report, ephem_report_with, report_done.
  rewrite (bind_returns _ _ _ _ _ (taken_run b temp_stringA msg w Hm)).
  set (w1 := taken temp_stringA msg w).
  assert (Hd1 : bufA w1 = deref w msg) by apply (taken_own temp_stringA).
  eapply eq_trans.
  { apply bind_returns.
    apply (mirror_run b n "Reporting: " (Own temp_stringA) w1 Hb).
    apply taken_calm, Hc. }
  cbn [deref buf]. rewrite Hd1.
  unfold bind at 1, read at 1.
  rewrite mirrored_bufA, Hd1. apply print_run, Hb.
Qed.

Lemma mirrored_calm b t w : calm b w -> calm b (mirrored b t w).
Proof.
  unfold calm, mirrored. intros H HD. rewrite HD. specialize (H HD).
  destruct (latch w) eqn:Hl.
  - left. exact Hl.
  - right. left. apply logged_open.
Qed.

Lemma error_done_calm b msg w : calm b w -> calm b (error_done b msg w).
Proof.
  intros H. unfold error_done.
  assert (H1 : calm b (taken_by_error msg w)).
  { unfold calm, sink_usable, taken_by_error in *.
    destruct (negb (points_to msg temp_stringA) && negb (points_to msg temp_stringB));
      exact H. }
  apply (mirrored_calm b ("Error: " ++ deref w msg)) in H1.
  unfold calm, sink_usable in *. exact H1.
Qed.

Lemma error_done_bufE b msg w : bufE (error_done b msg w) = bufE w.
Proof.
  unfold error_done, printed. norm. rewrite mirrored_bufE.
  unfold taken_by_error.
  destruct (negb (points_to msg temp_stringA) && negb (points_to msg temp_stringB));
    reflexivity.
Qed.

Lemma ephem_fatal_run b n file line msg w :
  build_ok b -> fits b (deref w msg) -> calm b w ->
  ephem_fatal b (S n) file line msg w
  = Exits 1 (fatal_done b file line msg w).
Proof.
  intros [Hb Hlit] Hm Hc. unfold ephem_fatal, ephem_fatal_with, fatal_done.
  rewrite (bind_returns _ _ _ _ _ (taken_run b temp_stringE msg w Hm)).
  set (w1 := taken temp_stringE msg w).
  unfold bind at 1, read at 1.
  rewrite (bind_returns _ _ _ _ _ (snprintf_local_fits b _ w1 Hb)).
  fold (introline b (deref w1 file) line).
  set (intro := introline b (deref w1 file) line).
  assert (Hc1 : calm b w1) by apply taken_calm, Hc.
  assert (He1 : ephem_error b (S n) (Ext intro) w1
                = Returns tt (error_done b (Ext intro) w1)).
  { apply ephem_error_run; [exact Hb | apply fits_formatted, Hb | exact Hc1]. }
  unfold ephem_error in He1. rewrite (bind_returns _ _ _ _ _ He1).
  set (w2 := error_done b (Ext intro) w1).
  assert (Hc2 : calm b w2) by apply error_done_calm, Hc1.
  assert (He2 : ephem_error b (S n) (Own temp_stringE) w2
                = Returns tt (error_done b (Own temp_stringE) w2)).
  { apply ephem_error_run; [exact Hb | | exact Hc2].
    cbn [deref buf]. unfold w2. rewrite error_done_bufE.
    unfold w1. change (bufE ?x) with (buf x temp_stringE).
    rewrite taken_own. exact Hm. }
  unfold ephem_error in He2. rewrite (bind_returns _ _ _ _ _ He2).
  set (w3 := error_done b (Own temp_stringE) w2).
  assert (Hc3 : calm b w3) by apply error_done_calm, Hc2.
  unfold calm in Hc3.
  destruct (DEBUG b); [|reflexivity].
  destruct (latch w3) eqn:Hl3.
  - rewrite (bind_returns _ _ _ _ _ (ephem_log_latched b n _ w3 Hl3)). reflexivity.
  - destruct (Hc3 eq_refl) as [H|H]; [discriminate|].
    rewrite (bind_returns _ _ _ _ _
               (ephem_log_writes b n (Ext "Terminating with error condition 1.")
                  w3 Hl3 H Hlit)).
    reflexivity.
Qed.

Lemma ephem_log_fails b n msg w :
  build_ok b ->
  latch w = false -> logfile w = None -> permits w "ephem.log" = false ->
  ephem_log b (S (S n)) msg w = Exits 1 (open_failed b w).
Proof.
  intros Hb Hl Hf Hp.
  assert (Hlit : fits b "Could not open log file to write.").
  { destruct Hb as [_ H]. unfold fits in *. cbn [String.length] in *. lia. }
  set (w0 := set_logfile None (count_fopen (set_latch true w))).
  assert (Hrun : ephem_fatal b (S n) (Ext (__FILE__ b)) 102
                   (Ext "Could not open log file to write.") w0
                 = Exits 1 (open_failed b w)).
  { apply ephem_fatal_run; [exact Hb | exact Hlit |].
    intros _. left. reflexivity. }
  unfold ephem_fatal in Hrun.
  change (ephem_log b (S (S n)) msg w) with
    ((l <- read latch ;;
     if l then ret tt else
     modify (set_latch true) ;;
     lf <- read logfile ;;
     match lf with
     | None =>
         f <- fopen "ephem.log" mode_w ;;
         modify (set_logfile f) ;;
         match f with
         | None =>
             ephem_fatal_with b (ephem_log b (S n)) (Ext (__FILE__ b)) 102
               (Ext "Could not open log file to write.") ;;
             exit 1
         | Some f => modify (set_logfile (Some (setvbuf f _IOLBF)))
         end
     | Some _ => ret tt
     end ;;
     (if negb (points_to msg temp_stringD) then strcpy b temp_stringD msg else ret tt) ;;
     t <- friendly_time_string b ;;
     d <- read bufD ;;
     fprintf_logfile ("[" ++ t ++ "] " ++ d ++ newline) ;;
     modify (set_latch false))%C w).
  unfold bind at 1, read at 1. rewrite Hl.
  unfold bind at 1, modify at 1.
  unfold bind at 1, read at 1. norm. rewrite Hf.
  unfold bind at 1.
  unfold bind at 1. unfold fopen, bind, modify, read. norm. rewrite Hp.
  unfold ret at 1. norm. fold w0.
  rewrite Hrun. reflexivity.
Qed.

(** *** The emitters, when the log file cannot be opened *)

Lemma calm_or_stuck b w : calm b w \/ stuck b w.
Proof.
  unfold calm, stuck, sink_usable.
  destruct (DEBUG b); [|left; discriminate].
  destruct (latch w); [left; auto|].
  destruct (logfile w); [left; intros _; right; left; discriminate|].
  destruct (permits w "ephem.log"); [left; auto | right; auto].
Qed.

Lemma mirror_fails b n pfx src w :
  build_ok b -> stuck b w ->
  (if DEBUG b then
     m <- read (fun w => deref w src) ;;
     snprintf b temp_stringC (FNAME_LENGTH b) (pfx ++ m) ;;
     ephem_log b (S (S n)) (Own temp_stringC)
   else ret tt) w
  = Exits 1 (open_failed b
               (set_buf temp_stringC (formatted b (pfx ++ deref w src)) w)).
Proof.
  intros Hb (HD & Hl & Hf & Hp). rewrite HD.
  unfold bind at 1, read at 1.
  rewrite (bind_returns _ _ _ _ _ (snprintf_fits b _ _ w (proj1 Hb))).
  apply ephem_log_fails; assumption.
Qed.

Lemma taken_stuck b sl msg w : stuck b w -> stuck b (taken sl msg w).
Proof.
  unfold stuck, taken. destruct (negb (points_to msg sl)); intros H; exact H.
Qed.

Lemma taken_by_error_stuck b msg w : stuck b w -> stuck b (taken_by_error msg w).
Proof.
  unfold stuck, taken_by_error.
  destruct (negb (points_to msg temp_stringA) && negb (points_to msg temp_stringB));
    intros H; exact H.
Qed.

Lemma ephem_error_fails b n msg w :
  build_ok b -> fits b (deref w msg) -> stuck b w ->
  ephem_error b (S (S n)) msg w
  = Exits 1 (open_failed b
               (set_buf temp_stringC (formatted b ("Error: " ++ deref w msg))
                  (taken_by_error msg w))).
Proof.
  intros Hb Hm Hs. unfold ephem_error, ephem_error_with.
  set (w1 := taken_by_error msg w).
  set (msg' := if negb (points_to msg temp_stringA) && negb (points_to msg temp_stringB)
               then Own temp_stringA else msg).
  assert (Htake :
    (if negb (points_to msg temp_stringA) && negb (points_to msg temp_stringB)
     then strcpy b temp_stringA msg ;; ret (Own temp_stringA)
     else ret msg) w = Returns msg' w1).
  { unfold msg', w1, taken_by_error.
    destruct (points_to msg temp_stringA) eqn:HA; cbn [negb andb];
      [reflexivity|].
    destruct (negb (points_to msg temp_stringB)); [|reflexivity].
    rewrite (bind_returns _ _ _ _ _ (strcpy_fits b _ _ w HA Hm)). reflexivity. }
  rewrite (bind_returns _ _ _ _ _ Htake).
  assert (Hd1 : deref w1 msg' = deref w msg).
  { unfold msg', w1, taken_by_error.
    destruct msg as [[]|s]; reflexivity. }
  rewrite <- Hd1.
  apply bind_exits.
  apply (mirror_fails b n "Error: " msg' w1 Hb).
  apply taken_by_error_stuck, Hs.
Qed.

Lemma ephem_warning_fails b n msg w :
  build_ok b -> fits b (deref w msg) -> stuck b w ->
  ephem_warning b (S (S n)) msg w
  = Exits 1 (open_failed b
               (set_buf temp_stringC (formatted b ("Warning: " ++ deref w msg))
                  (taken temp_stringA msg w))).
Proof.
  intros Hb Hm Hs. unfold ephem_warning, ephem_warning_with.
  rewrite (bind_returns _ _ _ _ _ (taken_run b temp_stringA msg w Hm)).
  rewrite <- (taken_own temp_stringA msg w).
  apply bind_exits.
  apply (mirror_fails b n "Warning: " (Own temp_stringA) _ Hb).
  apply taken_stuck, Hs.
Qed.

Lemma ephem_report_fails b n msg w :
  build_ok b -> fits b (deref w msg) -> stuck b w ->
  ephem_report b (S (S n)) msg w
  = Exits 1 (open_failed b
               (set_buf temp_stringC (formatted b ("Reporting: " ++ deref w msg))
                  (taken temp_stringA msg w))).
Proof.
  intros Hb Hm Hs. unfold ephem_report, ephem_report_with.
  rewrite (bind_returns _ _ _ _ _ (taken_run b temp_stringA msg w Hm)).
  rewrite <- (taken_own temp_stringA msg w).
  apply bind_exits.
  apply (mirror_fails b n "Reporting: " (Own temp_stringA) _ Hb).
  apply taken_stuck, Hs.
Qed.

Lemma ephem_fatal_fails b n file line msg w :
  build_ok b -> fits b (deref w msg) -> stuck b w ->
  let w1 := taken temp_stringE msg w in
  let intro := introline b (deref w1 file) line in
  ephem_fatal b (S (S n)) file line msg w
  = Exits 1 (open_failed b
               (set_buf temp_stringC (formatted b ("Error: " ++ intro))
                  (set_buf temp_stringA intro w1))).
Proof.
  intros Hb Hm Hs w1 intro. unfold ephem_fatal, ephem_fatal_with.
  rewrite (bind_returns _ _ _ _ _ (taken_run b temp_stringE msg w Hm)).
  fold w1. unfold bind at 1, read at 1.
  rewrite (bind_returns _ _ _ _ _ (snprintf_local_fits b _ w1 (proj1 Hb))).
  fold (introline b (deref w1 file) line). fold intro.
  apply bind_exits.
  apply (ephem_error_fails b n (Ext intro) w1 Hb).
  - apply fits_formatted, Hb.
  - apply taken_stuck, Hs.
Qed.

Lemma ephem_fatal_total b n file line msg w :
  build_ok b -> fits b (deref w msg) ->
  exists w', ephem_fatal b (S (S n)) file line msg w = Exits 1 w'.
Proof.
  intros Hb Hm. destruct (calm_or_stuck b w) as [Hc|Hs].
  - eexists. apply ephem_fatal_run; assumption.
  - eexists. apply ephem_fatal_fails; assumption.
Qed.

(** Whatever the message: the process ends with status 1, or the message
    is too long for its buffer and a copy of it writes past the end. *)
Lemma ephem_fatal_exits_or_overruns b n file line msg w :
  build_ok b ->
  (exists w', ephem_fatal b (S (S n)) file line msg w = Exits 1 w') \/
  (LSTR_LENGTH b <= String.length (deref w msg) /\
   ephem_fatal b (S (S n)) file line msg w = Faults buffer_overrun).
Proof.
  intros Hb.
  destruct (Nat.lt_ge_cases (String.length (deref w msg)) (LSTR_LENGTH b))
    as [Hfit|Hbig]; [left; apply ephem_fatal_total; assumption|].
  destruct (points_to msg temp_stringE) eqn:HE.
  - destruct msg as [[]|s]; try discriminate HE. cbn [deref buf] in Hbig.
    pose proof Hb as [Hf Hlit].
    set (intro := introline b (deref w file) line).
    assert (Hstart : forall k : ptr -> M unit,
              ephem_fatal_with b k file line (Own temp_stringE) w
              = (ephem_error_with b k (Ext intro) ;;
                 ephem_error_with b k (Own temp_stringE) ;;
                 (if DEBUG b
                  then k (Ext "Terminating with error condition 1.")
                  else ret tt) ;;
                 exit 1) w).
    { intros k. unfold ephem_fatal_with. cbn [points_to slot_eqb negb].
      unfold bind at 1, ret at 1. unfold bind at 1, read at 1.
      rewrite (bind_returns _ _ _ _ _ (snprintf_local_fits b _ w Hf)).
      reflexivity. }
    unfold ephem_fatal. rewrite Hstart.
    destruct (calm_or_stuck b w) as [Hc|Hs].
    + right. split; [exact Hbig|].
      assert (He1 : ephem_error b (S (S n)) (Ext intro) w
                    = Returns tt (error_done b (Ext intro) w)).
      { apply ephem_error_run; [exact Hf | apply fits_formatted, Hf | exact Hc]. }
      unfold ephem_error in He1. rewrite (bind_returns _ _ _ _ _ He1).
      apply bind_faults. unfold ephem_error_with.
      cbn [points_to slot_eqb negb andb].
      apply bind_faults, bind_faults, strcpy_overruns; [reflexivity|].
      cbn [deref buf]. rewrite error_done_bufE. exact Hbig.
    + left. eexists.
      pose proof (ephem_error_fails b n (Ext intro) w Hb
                    (fits_formatted b _ Hf) Hs) as He1.
      unfold ephem_error in He1. rewrite (bind_exits _ _ _ _ _ He1).
      reflexivity.
  - right. split; [exact Hbig|].
    unfold ephem_fatal, ephem_fatal_with. rewrite HE. cbn [negb].
    apply bind_faults, strcpy_overruns; assumption.
Qed.

(** * What the emitters are observed to do *)

Lemma mirrored_quiet b t w : DEBUG b = false -> mirrored b t w = w.
Proof. unfold mirrored; intros ->; reflexivity. Qed.

Lemma mirrored_stderr b t w : out_stderr (mirrored b t w) = out_stderr w.
Proof.
  unfold mirrored. destruct (DEBUG b); [|reflexivity].
  destruct (latch w); [reflexivity|]. now rewrite logged_stderr.
Qed.

Lemma mirrored_stdout b t w : out_stdout (mirrored b t w) = out_stdout w.
Proof.
  unfold mirrored. destruct (DEBUG b); [|reflexivity].
  destruct (latch w); [reflexivity|]. now rewrite logged_stdout.
Qed.

Lemma mirrored_latched b t w :
  latch w = true ->
  mirrored b t w = if DEBUG b then set_buf temp_stringC (formatted b t) w else w.
Proof. unfold mirrored; intros ->; reflexivity. Qed.

Lemma logged_sink_after b t w :
  sink_ok w -> sink_after b t w (logged b t w).
Proof.
  intros H. split.
  - apply logged_latch.
  - apply logged_logfile, H.
  - rewrite logged_disk by exact H. reflexivity.
  - apply logged_clock.
  - apply logged_permits.
  - apply logged_fopen_calls.
Qed.

Lemma sink_after_frame b t w w1 w' :
  sink_after b t w1 w' ->
  logfile w1 = logfile w -> disk w1 = disk w -> clock w1 = clock w ->
  permits w1 = permits w -> fopen_calls w1 = fopen_calls w ->
  sink_after b t w w'.
Proof.
  intros [H1 H2 H3 H4 H5 H6] Hl Hd Hc Hp Hf.
  unfold log_base, log_line in *.
  rewrite Hl, Hd, Hc in H3. rewrite Hc in H4. rewrite Hp in H5.
  rewrite Hl, Hf in H6.
  split; assumption.
Qed.

Lemma mirrored_sink_after b t w :
  DEBUG b = true -> latch w = false -> sink_ok w ->
  sink_after b (formatted b t) w (mirrored b t w).
Proof.
  intros HD Hl Hs. unfold mirrored. rewrite HD, Hl.
  eapply sink_after_frame; [apply logged_sink_after; exact Hs | | | | | ];
    reflexivity.
Qed.

Lemma error_done_stderr b msg w :
  out_stderr (error_done b msg w)
  = out_stderr w ++ formatted b ("Error: " ++ deref w msg ++ newline).
Proof.
  unfold error_done, printed. norm. rewrite mirrored_stderr.
  unfold taken_by_error.
  destruct (negb (points_to msg temp_stringA) && negb (points_to msg temp_stringB));
    reflexivity.
Qed.

Lemma taken_by_error_frame msg w :
  let w1 := taken_by_error msg w in
  logfile w1 = logfile w /\ disk w1 = disk w /\ clock w1 = clock w /\
  permits w1 = permits w /\ fopen_calls w1 = fopen_calls w /\
  latch w1 = latch w /\ out_stderr w1 = out_stderr w /\
  out_stdout w1 = out_stdout w.
Proof.
  unfold taken_by_error.
  destruct (negb (points_to msg temp_stringA) && negb (points_to msg temp_stringB));
    repeat split.
Qed.

Lemma taken_frame sl msg w :
  let w1 := taken sl msg w in
  logfile w1 = logfile w /\ disk w1 = disk w /\ clock w1 = clock w /\
  permits w1 = permits w /\ fopen_calls w1 = fopen_calls w /\
  latch w1 = latch w /\ out_stderr w1 = out_stderr w /\
  out_stdout w1 = out_stdout w.
Proof.
  unfold taken. destruct (negb (points_to msg sl)); repeat split.
Qed.

Lemma sink_ok_frame w w1 : logfile w1 = logfile w -> sink_ok w -> sink_ok w1.
Proof. unfold sink_ok; intros ->; auto. Qed.

Lemma printed_sink_after b st t text w w1 :
  sink_after b text w w1 -> sink_after b text w (printed b st t w1).
Proof. intros [H1 H2 H3 H4 H5 H6]. split; assumption. Qed.

Lemma error_done_sink_after b msg w :
  DEBUG b = true -> latch w = false -> sink_ok w ->
  sink_after b (formatted b ("Error: " ++ deref w msg)) w (error_done b msg w).
Proof.
  intros HD Hl Hs. unfold error_done. apply printed_sink_after.
  destruct (taken_by_error_frame msg w) as (F1 & F2 & F3 & F4 & F5 & F6 & _).
  eapply sink_after_frame; [apply mirrored_sink_after | | | | | ]; try eassumption.
  - congruence.
  - eapply sink_ok_frame; eassumption.
Qed.

Lemma error_done_quiet b msg w :
  DEBUG b = false ->
  let w' := error_done b msg w in
  logfile w' = logfile w /\ disk w' = disk w /\ clock w' = clock w /\
  fopen_calls w' = fopen_calls w /\ latch w' = latch w.
Proof.
  intros HD. unfold error_done. rewrite mirrored_quiet by exact HD.
  unfold printed. norm.
  destruct (taken_by_error_frame msg w) as (F1 & F2 & F3 & F4 & F5 & F6 & _).
  repeat split; assumption.
Qed.

Lemma at_rest_calm b w : at_rest b w -> calm b w.
Proof. intros (_ & _ & H) HD. right. exact (H HD). Qed.

Lemma done_emitted b st line logtext w w1 :
  at_rest b w ->
  logfile w1 = logfile w -> disk w1 = disk w -> clock w1 = clock w ->
  permits w1 = permits w -> fopen_calls w1 = fopen_calls w ->
  latch w1 = latch w -> out_stderr w1 = out_stderr w ->
  out_stdout w1 = out_stdout w ->
  emitted b st (formatted b line) (formatted b logtext) w
    (Returns tt (printed b st line (mirrored b logtext w1))).
Proof.
  intros (Hl & Hs & Hu) F1 F2 F3 F4 F5 F6 F7 F8.
  eexists; split; [reflexivity|].
  split; [|split].
  - destruct st; unfold printed; cbn [stream_out]; norm;
      rewrite ?mirrored_stderr, ?mirrored_stdout; congruence.
  - destruct st; unfold printed; cbn [stream_out other]; norm;
      rewrite ?mirrored_stderr, ?mirrored_stdout; congruence.
  - destruct (DEBUG b) eqn:HD.
    + assert (H : sink_after b (formatted b logtext) w
                    (printed b st line (mirrored b logtext w1))).
      { apply printed_sink_after.
        eapply sink_after_frame; [apply mirrored_sink_after | | | | | ];
          try eassumption; [congruence|].
        eapply sink_ok_frame; eassumption. }
      destruct H as [H1 H2 H3 H4 H5 H6]. split; [|exact H2].
      rewrite H3. reflexivity.
    + rewrite mirrored_quiet by exact HD. unfold printed; norm. auto.
Qed.

Lemma ephem_error_emitted b n msg w :
  formats_fit b -> fits b (deref w msg) -> at_rest b w ->
  emitted b stderr (formatted b ("Error: " ++ deref w msg ++ newline))
    (formatted b ("Error: " ++ deref w msg)) w
    (ephem_error b (S n) msg w).
Proof.
  intros Hb Hm Hr.
  rewrite ephem_error_run; [| assumption | assumption | apply at_rest_calm, Hr].
  destruct (taken_by_error_frame msg w) as (F1 & F2 & F3 & F4 & F5 & F6 & F7 & F8).
  apply done_emitted; assumption.
Qed.

Lemma ephem_warning_emitted b n msg w :
  formats_fit b -> fits b (deref w msg) -> at_rest b w ->
  emitted b stderr (formatted b ("Warning: " ++ deref w msg ++ newline))
    (formatted b ("Warning: " ++ deref w msg)) w
    (ephem_warning b (S n) msg w).
Proof.
  intros Hb Hm Hr.
  rewrite ephem_warning_run; [| assumption | assumption | apply at_rest_calm, Hr].
  destruct (taken_frame temp_stringA msg w) as (F1 & F2 & F3 & F4 & F5 & F6 & F7 & F8).
  apply done_emitted; assumption.
Qed.

Lemma ephem_report_emitted b n msg w :
  formats_fit b -> fits b (deref w msg) -> at_rest b w ->
  emitted b stdout (formatted b (deref w msg ++ newline))
    (formatted b ("Reporting: " ++ deref w msg)) w
    (ephem_report b (S n) msg w).
Proof.
  intros Hb Hm Hr.
  rewrite ephem_report_run; [| assumption | assumption | apply at_rest_calm, Hr].
  destruct (taken_frame temp_stringA msg w) as (F1 & F2 & F3 & F4 & F5 & F6 & F7 & F8).
  apply done_emitted; assumption.
Qed.

(** *** The hypotheses are invariants

    A state at rest with buffers within capacity is what the process
    starts in and what every emitter call that comes back leaves. *)

Lemma set_buf_buffers_ok b sl s w :
  fits b s -> buffers_ok b w -> buffers_ok b (set_buf sl s w).
Proof.
  intros Hs Hw sl'.
  destruct sl, sl'; first
    [ exact Hs | exact (Hw temp_stringA) | exact (Hw temp_stringB)
    | exact (Hw temp_stringC) | exact (Hw temp_stringD)
    | exact (Hw temp_stringE) ].
Qed.

Lemma logged_buffers_ok b t w :
  fits b t -> buffers_ok b w -> buffers_ok b (logged b t w).
Proof.
  intros Ht Hw sl. rewrite logged_buf.
  destruct (slot_eqb sl temp_stringD); [exact Ht | apply Hw].
Qed.

Lemma mirrored_buffers_ok b t w :
  formats_fit b -> buffers_ok b w -> buffers_ok b (mirrored b t w).
Proof.
  intros Hb Hw. unfold mirrored. destruct (DEBUG b); [|exact Hw].
  pose proof (fits_formatted b t Hb) as Hf.
  destruct (latch w).
  - apply set_buf_buffers_ok; assumption.
  - apply logged_buffers_ok; [|apply set_buf_buffers_ok]; assumption.
Qed.

Lemma done_buffers_ok b st line logtext w :
  formats_fit b -> buffers_ok b w ->
  buffers_ok b (printed b st line (mirrored b logtext w)).
Proof.
  intros Hb Hw sl. unfold printed.
  pose proof (mirrored_buffers_ok b logtext w Hb Hw) as Hm.
  pose proof (fits_formatted b line Hb) as Hf.
  destruct sl; first
    [ exact Hf | exact (Hm temp_stringA) | exact (Hm temp_stringB)
    | exact (Hm temp_stringD) | exact (Hm temp_stringE) ].
Qed.

Lemma done_at_rest b st line logtext w w1 :
  at_rest b w ->
  logfile w1 = logfile w -> latch w1 = latch w -> permits w1 = permits w ->
  at_rest b (printed b st line (mirrored b logtext w1)).
Proof.
  intros (Hl & Hs & Hu) F1 F2 F3. unfold at_rest, printed. norm.
  assert (Hs1 : sink_ok w1) by (eapply sink_ok_frame; eassumption).
  destruct (DEBUG b) eqn:HD.
  - destruct (mirrored_sink_after b logtext w1 HD) as [H1 H2 _ _ _ _];
      [congruence | exact Hs1 |].
    split; [exact H1|]. split.
    + unfold sink_ok. norm. now rewrite H2.
    + intros _. left. norm. congruence.
  - rewrite mirrored_quiet by exact HD.
    split; [congruence|]. split; [exact Hs1|]. discriminate.
Qed.

Lemma boot_at_rest b old : at_rest b (boot true old).
Proof.
  split; [reflexivity|]. split; [exact I|]. intros _. right. reflexivity.
Qed.

Lemma boot_buffers_ok b ok old :
  0 < LSTR_LENGTH b -> buffers_ok b (boot ok old).
Proof. intros H sl. destruct sl; exact H. Qed.

Lemma emitters_keep_the_state_at_rest b n msg w w' :
  formats_fit b -> fits b (deref w msg) -> at_rest b w -> buffers_ok b w ->
  ephem_error b (S n) msg w = Returns tt w' \/
  ephem_warning b (S n) msg w = Returns tt w' \/
  ephem_report b (S n) msg w = Returns tt w' ->
  at_rest b w' /\ buffers_ok b w'.
Proof.
  intros Hb Hm Hr Hw H.
  pose proof (at_rest_calm b w Hr) as Hc.
  rewrite ephem_error_run, ephem_warning_run, ephem_report_run in H
    by assumption.
  destruct (taken_by_error_frame msg w) as (F1 & _ & _ & F4 & _ & F6 & _).
  destruct (taken_frame temp_stringA msg w) as (G1 & _ & _ & G4 & _ & G6 & _).
  assert (Hw1 : buffers_ok b (taken_by_error msg w)).
  { unfold taken_by_error.
    destruct (negb (points_to msg temp_stringA) && negb (points_to msg temp_stringB));
      [apply set_buf_buffers_ok|]; assumption. }
  assert (Hw2 : buffers_ok b (taken temp_stringA msg w)).
  { unfold taken. destruct (negb (points_to msg temp_stringA));
      [apply set_buf_buffers_ok|]; assumption. }
  destruct H as [H|[H|H]]; injection H as <-.
  - split; [apply (done_at_rest b _ _ _ w) | apply done_buffers_ok]; assumption.
  - split; [apply (done_at_rest b _ _ _ w) | apply done_buffers_ok]; assumption.
  - split; [apply (done_at_rest b _ _ _ w) | apply done_buffers_ok]; assumption.
Qed.

(** Claim C7, as the code has it. From a state at rest, for a message [m]
    whose longest formatted line fits the short capacity (its length plus
    12 is at most [FNAME_LENGTH]): [ephem_error] writes exactly "Error: m"
    and a line feed to stderr, [ephem_warning] exactly "Warning: m" and a
    line feed to stderr, [ephem_report] exactly [m] and a line feed to
    stdout; each leaves the other stream alone and, in a build with
    [DEBUG], appends one stamped log line reading "Error: m", "Warning: m"
    or "Reporting: m"; without [DEBUG] the log is not touched. *)
Theorem emitters_write_their_lines (b : build) (n : nat) (msg : ptr) (w : world) :
  formats_fit b -> at_rest b w ->
  String.length (deref w msg) + 12 <= FNAME_LENGTH b ->
  let m := deref w msg in
  emitted b stderr ("Error: " ++ m ++ newline) ("Error: " ++ m) w
    (ephem_error b (S n) msg w) /\
  emitted b stderr ("Warning: " ++ m ++ newline) ("Warning: " ++ m) w
    (ephem_warning b (S n) msg w) /\
  emitted b stdout (m ++ newline) ("Reporting: " ++ m) w
    (ephem_report b (S n) msg w).
Proof.
  intros Hb Hr Hlen m.
  assert (Hm : fits b m) by (unfold fits, formats_fit in *; fold m in Hlen; lia).
  assert (Hlog : forall p, String.length p <= 11 ->
                   formatted b (p ++ m) = p ++ m).
  { intros p Hp. unfold formatted. fold m in Hlen.
    apply take_all. rewrite length_append. lia. }
  assert (Hout : forall p, String.length p <= 10 ->
                   formatted b (p ++ m ++ newline) = p ++ m ++ newline).
  { intros p Hp. unfold formatted. fold m in Hlen.
    apply take_all. rewrite !length_append.
    change (String.length newline) with 1. lia. }
  split; [|split].
  - rewrite <- (Hlog "Error: "), <- (Hout "Error: ") by (cbn; lia).
    apply ephem_error_emitted; assumption.
  - rewrite <- (Hlog "Warning: "), <- (Hout "Warning: ") by (cbn; lia).
    apply ephem_warning_emitted; assumption.
  - rewrite <- (Hlog "Reporting: ") by (cbn; lia).
    change (m ++ newline) with ("" ++ m ++ newline).
    rewrite <- (Hout "") by (cbn; lia).
    apply ephem_report_emitted; assumption.
Qed.

(** * What a fatal call leaves behind *)

Lemma fflush_logfile_ok w : sink_ok w -> fflush_logfile w = w.
Proof.
  unfold sink_ok, fflush_logfile. destruct (logfile w) as [f|]; [|reflexivity].
  intros ->. reflexivity.
Qed.

Lemma fflush_logfile_stderr w : out_stderr (fflush_logfile w) = out_stderr w.
Proof.
  unfold fflush_logfile. destruct (logfile w) as [f|]; [|reflexivity].
  destruct (f_pending f); [reflexivity|]. reflexivity.
Qed.

Lemma sink_after_ok b t w w' : sink_after b t w w' -> sink_ok w'.
Proof. intros [_ H _ _ _ _]. unfold sink_ok. rewrite H. reflexivity. Qed.

Lemma sink_after_base b t w w' :
  sink_after b t w w' -> log_base w' = log_base w ++ log_line b w t.
Proof.
  intros [_ H1 H2 _ _ _]. unfold log_base at 1, content. rewrite H1, H2.
  reflexivity.
Qed.

Section Fatal.
Variable b : build.
Variables (file : string) (line : Z) (msg : ptr) (w : world).

Let m := deref w msg.
Let intro := introline b file line.
Let w1 := taken temp_stringE msg w.
Let w2 := error_done b (Ext intro) w1.
Let w3 := error_done b (Own temp_stringE) w2.

Lemma fatal_done_stderr :
  out_stderr (fatal_done b (Ext file) line msg w)
  = out_stderr w ++ formatted b ("Error: " ++ intro ++ newline)
                 ++ formatted b ("Error: " ++ m ++ newline).
Proof.
  unfold fatal_done. cbn [deref]. fold w1 intro w2 w3.
  rewrite fflush_logfile_stderr.
  assert (H3 : out_stderr w3
               = out_stderr w ++ formatted b ("Error: " ++ intro ++ newline)
                              ++ formatted b ("Error: " ++ m ++ newline)).
  { unfold w3. rewrite error_done_stderr. unfold w2 at 1.
    rewrite error_done_stderr. cbn [deref buf].
    unfold w2. rewrite error_done_bufE. unfold w1.
    change (bufE ?x) with (buf x temp_stringE). rewrite taken_own.
    destruct (taken_frame temp_stringE msg w) as (_ & _ & _ & _ & _ & _ & F & _).
    rewrite F. fold m. now rewrite append_assoc. }
  destruct (DEBUG b); [|exact H3].
  destruct (latch w3); [exact H3|]. rewrite logged_stderr. exact H3.
Qed.

Lemma fatal_done_quiet :
  DEBUG b = false -> sink_ok w ->
  let w' := fatal_done b (Ext file) line msg w in
  disk w' = disk w /\ logfile w' = logfile w /\
  fopen_calls w' = fopen_calls w /\ clock w' = clock w.
Proof.
  intros HD Hs. unfold fatal_done. cbn [deref]. fold w1 intro w2 w3.
  rewrite HD.
  destruct (taken_frame temp_stringE msg w) as (F1 & F2 & F3 & F4 & F5 & F6 & _).
  destruct (error_done_quiet b (Ext intro) w1 HD) as (G1 & G2 & G3 & G4 & G5).
  destruct (error_done_quiet b (Own temp_stringE) w2 HD) as (K1 & K2 & K3 & K4 & K5).
  fold w1 in F1, F2, F3, F4, F5, F6. fold w2 in G1, G2, G3, G4, G5.
  fold w2 w3 in K1, K2, K3, K4, K5.
  rewrite fflush_logfile_ok.
  - repeat split; congruence.
  - eapply sink_ok_frame; [|exact Hs]. congruence.
Qed.

Lemma fatal_done_logged :
  DEBUG b = true -> latch w = false -> sink_ok w ->
  let w' := fatal_done b (Ext file) line msg w in
  disk w' "ephem.log"
  = Some (log_base w
          ++ stamped b (clock w) (formatted b ("Error: " ++ intro))
          ++ stamped b (S (clock w)) (formatted b ("Error: " ++ m))
          ++ stamped b (S (S (clock w))) "Terminating with error condition 1.")
  /\ logfile w' = Some log_stream.
Proof.
  intros HD Hl Hs. unfold fatal_done. cbn [deref]. fold w1 intro w2 w3.
  rewrite HD.
  destruct (taken_frame temp_stringE msg w) as (F1 & F2 & F3 & F4 & F5 & F6 & _).
  fold w1 in F1, F2, F3, F4, F5, F6.
  assert (A2 : sink_after b (formatted b ("Error: " ++ intro)) w w2).
  { eapply sink_after_frame;
      [apply (error_done_sink_after b (Ext intro) w1 HD) | | | | | ];
      try assumption; [congruence|].
    eapply sink_ok_frame; eassumption. }
  assert (A3 : sink_after b (formatted b ("Error: " ++ m)) w2 w3).
  { replace m with (deref w2 (Own temp_stringE)).
    - apply error_done_sink_after;
        [exact HD | apply A2 | eapply sink_after_ok, A2].
    - cbn [deref buf]. unfold w2. rewrite error_done_bufE. unfold w1.
      change (bufE ?x) with (buf x temp_stringE). apply taken_own. }
  assert (A4 : sink_after b "Terminating with error condition 1." w3
                 (logged b "Terminating with error condition 1." w3)).
  { apply logged_sink_after. eapply sink_after_ok, A3. }
  rewrite (after_latch _ _ _ _ A3).
  rewrite fflush_logfile_ok by (eapply sink_after_ok, A4).
  split; [|apply A4].
  rewrite (after_disk _ _ _ _ A4).
  rewrite (sink_after_base _ _ _ _ A3), (sink_after_base _ _ _ _ A2).
  unfold log_line. rewrite (after_clock _ _ _ _ A3), (after_clock _ _ _ _ A2).
  unfold stamped. rewrite !append_assoc. reflexivity.
Qed.
End Fatal.

Lemma error_done_latched b msg w :
  latch w = true ->
  let w' := error_done b msg w in
  latch w' = true /\ logfile w' = logfile w /\ disk w' = disk w /\
  clock w' = clock w /\ fopen_calls w' = fopen_calls w.
Proof.
  intros Hl. unfold error_done.
  destruct (taken_by_error_frame msg w) as (F1 & F2 & F3 & _ & F5 & F6 & _).
  rewrite mirrored_latched by congruence.
  destruct (DEBUG b); unfold printed; norm; repeat split; congruence.
Qed.

Lemma fatal_done_latched b file line msg w :
  latch w = true -> logfile w = None ->
  let w' := fatal_done b file line msg w in
  logfile w' = None /\ disk w' = disk w /\
  clock w' = clock w /\ fopen_calls w' = fopen_calls w.
Proof.
  intros Hl Hf. unfold fatal_done.
  destruct (taken_frame temp_stringE msg w) as (F1 & F2 & F3 & _ & F5 & F6 & _).
  set (w1 := taken temp_stringE msg w) in *.
  set (intro := introline b (deref w1 file) line).
  destruct (error_done_latched b (Ext intro) w1) as (G0 & G1 & G2 & G3 & G5);
    [congruence|].
  set (w2 := error_done b (Ext intro) w1) in *.
  destruct (error_done_latched b (Own temp_stringE) w2 G0)
    as (K0 & K1 & K2 & K3 & K5).
  set (w3 := error_done b (Own temp_stringE) w2) in *.
  rewrite K0.
  assert (H3 : logfile w3 = None) by congruence.
  assert (E : fflush_logfile (if DEBUG b then w3 else w3) = w3).
  { destruct (DEBUG b); unfold fflush_logfile; now rewrite H3. }
  rewrite E. repeat split; congruence.
Qed.

Lemma open_failed_facts b w :
  let w' := open_failed b w in
  fopen_calls w' = S (fopen_calls w) /\ disk w' = disk w /\
  logfile w' = None /\ clock w' = clock w /\
  out_stderr w'
  = out_stderr w
    ++ formatted b ("Error: " ++ introline b (__FILE__ b) 102 ++ newline)
    ++ formatted b ("Error: Could not open log file to write." ++ newline).
Proof.
  unfold open_failed.
  set (w0 := set_logfile None (count_fopen (set_latch true w))).
  destruct (fatal_done_latched b (Ext (__FILE__ b)) 102
              (Ext "Could not open log file to write.") w0 eq_refl eq_refl)
    as (H1 & H2 & H3 & H4).
  repeat split; try assumption.
  exact (fatal_done_stderr b (__FILE__ b) 102
           (Ext "Could not open log file to write.") w0).
Qed.

(** * The log sink, the fatal path and the guarded read *)

(** Claim C5. While the latch is set, a call of [ephem_log] returns at
    once and changes nothing. When the log file is not open and cannot be
    opened, a call of [ephem_log] ends the process with status 1 after one
    call of [fopen]: the fatal sequence put its two lines on stderr once,
    the disk and the clock are as before, and no stream was opened. The
    same holds when the call of [ephem_log] is the one an emitter makes
    in a build with [DEBUG], here [ephem_error]. *)
Theorem log_reentry_is_skipped_and_open_failure_exits_once
    (b : build) (n : nat) (msg : ptr) (w : world) :
  (latch w = true -> ephem_log b (S n) msg w = Returns tt w) /\
  (build_ok b -> latch w = false -> logfile w = None ->
   permits w "ephem.log" = false ->
   exists w',
     ephem_log b (S (S n)) msg w = Exits 1 w' /\
     fopen_calls w' = S (fopen_calls w) /\
     disk w' = disk w /\ logfile w' = None /\ clock w' = clock w /\
     out_stderr w'
     = out_stderr w
       ++ formatted b ("Error: " ++ introline b (__FILE__ b) 102 ++ newline)
       ++ formatted b ("Error: Could not open log file to write." ++ newline)) /\
  (build_ok b -> stuck b w -> fits b (deref w msg) ->
   exists w',
     ephem_error b (S (S n)) msg w = Exits 1 w' /\
     fopen_calls w' = S (fopen_calls w) /\
     disk w' = disk w /\ logfile w' = None /\ clock w' = clock w /\
     out_stderr w'
     = out_stderr w
       ++ formatted b ("Error: " ++ introline b (__FILE__ b) 102 ++ newline)
       ++ formatted b ("Error: Could not open log file to write." ++ newline)).
Proof.
  split; [|split].
  - apply ephem_log_latched.
  - intros Hb Hl Hf Hp. exists (open_failed b w). split.
    + apply ephem_log_fails; assumption.
    + apply open_failed_facts.
  - intros Hb Hs Hm. eexists. split.
    + apply ephem_error_fails; assumption.
    + destruct (taken_by_error_frame msg w)
        as (F1 & F2 & F3 & _ & F5 & _ & F7 & _).
      match goal with
      | |- context [open_failed b ?w2] =>
          destruct (open_failed_facts b w2) as (H1 & H2 & H3 & H4 & H5)
      end.
      rewrite H1, H2, H3, H4, H5. norm.
      rewrite F2, F3, F5, F7. repeat split.
Qed.

Lemma triple_any {A} (c : M A) w :
  triple any_state c (fun _ => any_state) -> exit_status_1 (c w).
Proof.
  intros H. specialize (H w I). unfold exit_status_1.
  destruct (c w); auto.
Qed.

Lemma triple_never {A} (c : M A) w :
  triple any_state c (fun _ _ => False) -> leaves_with_status_1 (c w).
Proof.
  intros H. specialize (H w I). unfold leaves_with_status_1.
  destruct (c w); auto.
Qed.

Lemma dcffread_tame b n size nmemb src :
  triple any_state (dcffread b (S (S n)) size nmemb src) (fun _ => any_state).
Proof.
  unfold dcffread. destruct (fread size nmemb src) as [[c got] rest].
  eapply triple_bind with (Q := fun _ => any_state); [|intros; apply triple_ret].
  destruct (negb (c =? nmemb)%nat); [|apply triple_ret].
  apply ephem_fatal_leaves; [exact any_state_stable|].
  intros p; apply ephem_log_tame.
Qed.

(** Claim C2, as the code has it. In a build whose buffers hold the
    literals, [ephem_fatal] called with a message that fits its buffer ends
    the process with status 1, whatever the call site and the state, be
    the log file writable or not. Whatever the message, with fuel for two
    levels of calls it never comes back to its caller and never runs out
    of fuel, and if it ends the process the status is 1: in such a build
    it ends the process with status 1, or else the message has
    [LSTR_LENGTH] characters or more and a copy of it writes past the end
    of a buffer. No function of the file ends the process with another
    status. *)
Theorem fatal_never_returns_and_exits_1
    (b : build) (n : nat) (file : ptr) (line : Z) (msg : ptr) (w : world) :
  leaves_with_status_1 (ephem_fatal b (S (S n)) file line msg w) /\
  (build_ok b -> fits b (deref w msg) ->
   exists w', ephem_fatal b (S (S n)) file line msg w = Exits 1 w') /\
  (build_ok b ->
   (exists w', ephem_fatal b (S (S n)) file line msg w = Exits 1 w') \/
   (LSTR_LENGTH b <= String.length (deref w msg) /\
    ephem_fatal b (S (S n)) file line msg w = Faults buffer_overrun)) /\
  exit_status_1 (ephem_error b (S (S n)) msg w) /\
  exit_status_1 (ephem_warning b (S (S n)) msg w) /\
  exit_status_1 (ephem_report b (S (S n)) msg w) /\
  exit_status_1 (ephem_log b (S (S n)) msg w) /\
  (forall size nmemb src,
     exit_status_1 (dcffread b (S (S n)) size nmemb src w)).
Proof.
  pose proof (fun p => ephem_log_tame b n p) as Hlog.
  split; [|split; [|split; [|repeat split]]].
  - apply triple_never, ephem_fatal_never_returns.
  - apply ephem_fatal_total.
  - apply ephem_fatal_exits_or_overruns.
  - apply triple_any, ephem_error_keeps; [exact any_state_stable | exact Hlog].
  - apply triple_any, ephem_warning_keeps; [exact any_state_stable | exact Hlog].
  - apply triple_any, ephem_report_keeps; [exact any_state_stable | exact Hlog].
  - apply triple_any, Hlog.
  - intros. apply triple_any, dcffread_tame.
Qed.

(** Claim C1, as the code has it. A call of [ephem_fatal] with a message
    that fits its buffer, from a state at rest, ends the process with
    status 1 after the location line and the message went to stderr as two
    error lines, each cut to its first [FNAME_LENGTH - 1] characters; the
    two lines are whole, line feed included, when the location text and
    the message have at most [FNAME_LENGTH - 9] characters each. The log
    file is written only in a build with [DEBUG]: there the two error
    texts and the line "Terminating with error condition 1." are appended,
    each under its own stamp; without [DEBUG] the disk, the log stream and
    the count of [fopen] calls are as before. *)
Theorem fatal_mirrors_only_under_debug
    (b : build) (n : nat) (file : string) (line : Z) (msg : ptr) (w : world) :
  build_ok b -> fits b (deref w msg) -> at_rest b w ->
  let place := "Fatal Error encountered in " ++ file ++ " at line "
               ++ decimal line ++ ":" in
  exists w',
    ephem_fatal b (S n) (Ext file) line msg w = Exits 1 w' /\
    out_stderr w'
    = out_stderr w
      ++ formatted b ("Error: " ++ introline b file line ++ newline)
      ++ formatted b ("Error: " ++ deref w msg ++ newline) /\
    (String.length place + 9 <= FNAME_LENGTH b ->
     String.length (deref w msg) + 9 <= FNAME_LENGTH b ->
     out_stderr w'
     = out_stderr w ++ ("Error: " ++ place ++ newline)
                    ++ ("Error: " ++ deref w msg ++ newline)) /\
    if DEBUG b
    then disk w' "ephem.log"
         = Some (log_base w
                 ++ stamped b (clock w)
                      (formatted b ("Error: " ++ introline b file line))
                 ++ stamped b (S (clock w))
                      (formatted b ("Error: " ++ deref w msg))
                 ++ stamped b (S (S (clock w)))
                      "Terminating with error condition 1.")
    else disk w' = disk w /\ logfile w' = logfile w /\
         fopen_calls w' = fopen_calls w.
Proof.
  intros Hb Hm Hr place. exists (fatal_done b (Ext file) line msg w).
  split; [apply ephem_fatal_run; [exact Hb | exact Hm | apply at_rest_calm, Hr]|].
  split; [apply fatal_done_stderr|].
  split.
  - intros Hp Hl. rewrite fatal_done_stderr.
    unfold introline. fold place.
    rewrite (formatted_short b place) by lia.
    rewrite !formatted_short; [reflexivity | |];
      rewrite !length_append; change (String.length newline) with 1;
      cbn [String.length]; lia.
  - destruct Hr as (Hl & Hs & Hu).
    destruct (DEBUG b) eqn:HD.
    + apply fatal_done_logged; assumption.
    + destruct (fatal_done_quiet b file line msg w HD Hs) as (H1 & H2 & H3 & _).
      auto.
Qed.

(** Claim C3, as the code has it. The first write opens "ephem.log" with
    one call of [fopen] in mode w: whatever the file held before, it then
    holds the one stamped line, and the stream is line buffered with
    nothing pending. A later write through the open stream calls [fopen]
    no more and appends its line to what the file holds. *)
Theorem first_write_opens_emptying_and_line_buffered
    (b : build) (n : nat) (msg : ptr) (w : world) :
  latch w = false -> fits b (deref w msg) ->
  (logfile w = None -> permits w "ephem.log" = true ->
   exists w',
     ephem_log b (S n) msg w = Returns tt w' /\
     fopen_calls w' = S (fopen_calls w) /\
     logfile w'
     = Some {| f_path := "ephem.log"; f_buf := _IOLBF; f_pending := "" |} /\
     disk w' "ephem.log" = Some (stamped b (clock w) (deref w msg))) /\
  (logfile w = Some log_stream ->
   exists w',
     ephem_log b (S n) msg w = Returns tt w' /\
     fopen_calls w' = fopen_calls w /\
     logfile w' = Some log_stream /\
     disk w' "ephem.log"
     = Some (content (disk w) "ephem.log" ++ stamped b (clock w) (deref w msg))).
Proof.
  intros Hl Hm. split.
  - intros Hf Hp. exists (logged b (deref w msg) w).
    assert (Hs : sink_ok w) by (unfold sink_ok; now rewrite Hf).
    split; [apply ephem_log_writes; [exact Hl | right; exact Hp | exact Hm]|].
    rewrite logged_fopen_calls, logged_logfile, logged_disk by exact Hs.
    rewrite Hf. repeat split.
  - intros Hf. exists (logged b (deref w msg) w).
    assert (Hs : sink_ok w) by (unfold sink_ok; now rewrite Hf).
    split; [apply ephem_log_writes; [exact Hl | left; congruence | exact Hm]|].
    rewrite logged_fopen_calls, logged_logfile, logged_disk by exact Hs.
    rewrite Hf. repeat split.
Qed.


(** Claim C10. From a state at rest, for every message that fits its
    buffer of [LSTR_LENGTH] characters, what the three emitters write to
    their stream and to the log is the formatted text cut to the first
    [FNAME_LENGTH - 1] characters; for a message of [FNAME_LENGTH]
    characters or more, that is exactly [FNAME_LENGTH - 1] characters. *)
Theorem emitted_lines_are_cut_to_the_short_capacity
    (b : build) (n : nat) (msg : ptr) (w : world) :
  formats_fit b -> fits b (deref w msg) -> at_rest b w ->
  let m := deref w msg in
  let cut := take (FNAME_LENGTH b - 1) in
  emitted b stderr (cut ("Error: " ++ m ++ newline)) (cut ("Error: " ++ m)) w
    (ephem_error b (S n) msg w) /\
  emitted b stderr (cut ("Warning: " ++ m ++ newline)) (cut ("Warning: " ++ m)) w
    (ephem_warning b (S n) msg w) /\
  emitted b stdout (cut (m ++ newline)) (cut ("Reporting: " ++ m)) w
    (ephem_report b (S n) msg w) /\
  (FNAME_LENGTH b <= String.length m ->
   forall p, String.length (cut (p ++ m)) = FNAME_LENGTH b - 1 /\
             String.length (cut (p ++ m ++ newline)) = FNAME_LENGTH b - 1).
Proof.
  intros Hb Hm Hr m cut. repeat split.
  - apply ephem_error_emitted; assumption.
  - apply ephem_warning_emitted; assumption.
  - apply ephem_report_emitted; assumption.
  - unfold cut. rewrite length_take, length_append. lia.
  - unfold cut. rewrite length_take, !length_append. lia.
Qed.


(** Claim C4, as the code has it. For a message [m] shorter than
    [LSTR_LENGTH], from a state at rest: [ephem_error] comes back with [m]
    stored as it is in [temp_stringA] (unless it was passed in
    [temp_stringB], which is read in place), and stderr got the first
    [FNAME_LENGTH - 1] characters of "Error: m" and a line feed: a prefix
    of that line, and the whole line, with [m] in it, when the length of
    [m] plus 9 is at most [FNAME_LENGTH]. A call of [ephem_log], when the
    file is open or can be opened, comes back with [m] stored as it is in
    [temp_stringD] and the whole of [m] in the line it appended. *)
Theorem stored_message_is_kept_and_emitted_up_to_the_short_capacity
    (b : build) (n : nat) (msg : ptr) (w : world) :
  formats_fit b -> fits b (deref w msg) -> at_rest b w ->
  let m := deref w msg in
  let line := "Error: " ++ m ++ newline in
  (exists w',
     ephem_error b (S n) msg w = Returns tt w' /\
     (points_to msg temp_stringB = false -> bufA w' = m) /\
     out_stderr w' = out_stderr w ++ take (FNAME_LENGTH b - 1) line /\
     prefix (take (FNAME_LENGTH b - 1) line) line = true /\
     (String.length m + 9 <= FNAME_LENGTH b ->
      take (FNAME_LENGTH b - 1) line = line /\
      contains m (take (FNAME_LENGTH b - 1) line) = true)) /\
  (sink_usable w ->
   exists w',
     ephem_log b (S n) msg w = Returns tt w' /\
     bufD w' = m /\
     disk w' "ephem.log" = Some (log_base w ++ stamped b (clock w) m)).
Proof.
  intros Hb Hm Hr m line. split.
  - exists (error_done b msg w). split; [|split; [|split; [|split]]].
    + apply ephem_error_run; [exact Hb | exact Hm | apply at_rest_calm, Hr].
    + intros HB. unfold error_done, printed. norm. rewrite mirrored_bufA.
      unfold taken_by_error, m. rewrite HB.
      destruct msg as [[]|s]; try discriminate HB; reflexivity.
    + apply error_done_stderr.
    + apply take_prefix.
    + intros Hlen.
      assert (E : take (FNAME_LENGTH b - 1) line = line).
      { apply take_all. unfold line. rewrite !length_append.
        change (String.length newline) with 1. cbn [String.length]. lia. }
      split; [exact E|]. rewrite E. apply contains_append.
  - intros Hu. destruct Hr as (Hl & Hs & _).
    exists (logged b m w). split; [|split].
    + apply ephem_log_writes; assumption.
    + change (bufD (logged b m w)) with (buf (logged b m w) temp_stringD).
      rewrite logged_buf. reflexivity.
    + rewrite logged_disk by exact Hs. reflexivity.
Qed.

(** Claim C9, as the code has it. [ephem_fatal] called with
    [temp_stringA] as its message, in a state where a log write of a build
    with [DEBUG] is latched out or can get at its file: the message was
    copied to [temp_stringE] first, so although the call of [ephem_error]
    for the location line leaves that line in [temp_stringA],
    [temp_stringE] still holds the message, and the two lines on stderr
    are the location line and the original message, each cut to its first
    [FNAME_LENGTH - 1] characters; the second line is "Error: ", the whole
    message and a line feed when the message has at most
    [FNAME_LENGTH - 9] characters. *)
Theorem fatal_keeps_a_message_held_in_the_error_slot
    (b : build) (n : nat) (file : string) (line : Z) (w : world) :
  build_ok b -> fits b (bufA w) -> calm b w ->
  let m := bufA w in
  let intro := introline b file line in
  (exists w2,
     ephem_error b (S n) (Ext intro) (set_buf temp_stringE m w) = Returns tt w2 /\
     bufA w2 = intro /\ bufE w2 = m) /\
  (exists w',
     ephem_fatal b (S n) (Ext file) line (Own temp_stringA) w = Exits 1 w' /\
     out_stderr w'
     = out_stderr w
       ++ formatted b ("Error: " ++ intro ++ newline)
       ++ formatted b ("Error: " ++ m ++ newline)) /\
  (String.length m + 9 <= FNAME_LENGTH b ->
   formatted b ("Error: " ++ m ++ newline) = "Error: " ++ m ++ newline).
Proof.
  intros Hb Hm Hc m intro. split; [|split].
  - exists (error_done b (Ext intro) (set_buf temp_stringE m w)).
    split; [|split].
    + apply ephem_error_run; [apply Hb | apply fits_formatted, Hb | exact Hc].
    + unfold error_done, printed. norm. rewrite mirrored_bufA. reflexivity.
    + rewrite error_done_bufE. reflexivity.
  - exists (fatal_done b (Ext file) line (Own temp_stringA) w). split.
    + apply ephem_fatal_run; assumption.
    + apply fatal_done_stderr.
  - intros Hlen. apply formatted_short. rewrite !length_append.
    change (String.length newline) with 1. cbn [String.length]. lia.
Qed.

(** ** No function copies a buffer onto itself *)

Section NoSelfCopy.
Variable b : build.

Lemma no_self_copy_bind {A B} (c : M A) (k : A -> M B) :
  no_self_copy c -> (forall a, no_self_copy (k a)) -> no_self_copy (bind c k).
Proof.
  intros Hc Hk w. unfold bind. specialize (Hc w).
  destruct (c w) as [a w'| st w' | f |]; try discriminate.
  - apply Hk.
  - intros E. apply Hc. injection E as ->. reflexivity.
Qed.

Lemma no_self_copy_ret {A} (a : A) : no_self_copy (ret a).
Proof. intros w. discriminate. Qed.

Lemma no_self_copy_read {A} (f : world -> A) : no_self_copy (read f).
Proof. intros w. discriminate. Qed.

Lemma no_self_copy_modify f : no_self_copy (modify f).
Proof. intros w. discriminate. Qed.

Lemma no_self_copy_exit {A} st : no_self_copy (@exit A st).
Proof. intros w. discriminate. Qed.

Lemma no_self_copy_strcpy dst src :
  points_to src dst = false -> no_self_copy (strcpy b dst src).
Proof.
  intros Hp w. unfold strcpy. rewrite Hp. unfold bind, read.
  destruct (_ <? _)%nat; discriminate.
Qed.

(** The guard of every intake: the copy is made only from another
    object. *)
Lemma no_self_copy_intake dst src :
  no_self_copy (if negb (points_to src dst) then strcpy b dst src else ret tt).
Proof.
  destruct (points_to src dst) eqn:Hp; cbn [negb].
  - apply no_self_copy_ret.
  - apply no_self_copy_strcpy, Hp.
Qed.

Lemma no_self_copy_snprintf dst n text : no_self_copy (snprintf b dst n text).
Proof.
  intros w. unfold snprintf. destruct n as [|k]; [discriminate|].
  destruct (_ <? _)%nat; discriminate.
Qed.

Lemma no_self_copy_snprintf_local n text : no_self_copy (snprintf_local n text).
Proof. intros w. destruct n; discriminate. Qed.

Lemma no_self_copy_fputs s st : no_self_copy (fputs s st).
Proof. intros w. discriminate. Qed.

Lemma no_self_copy_fopen path m : no_self_copy (fopen path m).
Proof.
  intros w. unfold fopen, bind, modify, read, ret.
  destruct (permits _ _); discriminate.
Qed.

Lemma no_self_copy_time : no_self_copy (friendly_time_string b).
Proof. intros w. discriminate. Qed.

Lemma no_self_copy_fprintf text : no_self_copy (fprintf_logfile text).
Proof.
  intros w. unfold fprintf_logfile, bind, read.
  destruct (logfile w) as [f|]; [|discriminate].
  destruct (stream_write f text). discriminate.
Qed.

Ltac steps_with tac :=
  repeat first
    [ tac
    | apply no_self_copy_ret | apply no_self_copy_read
    | apply no_self_copy_modify | apply no_self_copy_exit
    | apply no_self_copy_intake | apply no_self_copy_snprintf
    | apply no_self_copy_snprintf_local | apply no_self_copy_fputs
    | apply no_self_copy_fopen | apply no_self_copy_time
    | apply no_self_copy_fprintf
    | apply no_self_copy_bind; [|intros] ].

Ltac steps := steps_with fail.

Section Emitters.
Variable log : ptr -> M unit.
Hypothesis Hlog : forall p, no_self_copy (log p).

Lemma ephem_error_copies_no_buffer_onto_itself msg :
  no_self_copy (ephem_error_with b log msg).
Proof.
  unfold ephem_error_with.
  apply no_self_copy_bind.
  - destruct (points_to msg temp_stringA) eqn:HA; cbn [negb andb].
    + apply no_self_copy_ret.
    + destruct (negb (points_to msg temp_stringB)); [|apply no_self_copy_ret].
      apply no_self_copy_bind; [apply no_self_copy_strcpy, HA|].
      intros; apply no_self_copy_ret.
  - intros p. apply no_self_copy_bind.
    + destruct (DEBUG b); steps. apply Hlog.
    + intros; steps.
Qed.

Lemma ephem_warning_copies_no_buffer_onto_itself msg :
  no_self_copy (ephem_warning_with b log msg).
Proof.
  unfold ephem_warning_with. steps.
  destruct (DEBUG b); steps. apply Hlog.
Qed.

Lemma ephem_report_copies_no_buffer_onto_itself msg :
  no_self_copy (ephem_report_with b log msg).
Proof.
  unfold ephem_report_with. steps.
  destruct (DEBUG b); steps. apply Hlog.
Qed.

Lemma ephem_fatal_copies_no_buffer_onto_itself file line msg :
  no_self_copy (ephem_fatal_with b log file line msg).
Proof.
  unfold ephem_fatal_with.
  steps_with ltac:(apply ephem_error_copies_no_buffer_onto_itself).
  destruct (DEBUG b); steps. apply Hlog.
Qed.
End Emitters.

Lemma ephem_log_copies_no_buffer_onto_itself fuel msg :
  no_self_copy (ephem_log b fuel msg).
Proof.
  revert msg. induction fuel as [|fuel IH]; intros msg; [intros w; discriminate|].
  cbn [ephem_log]. apply no_self_copy_bind; [apply no_self_copy_read|].
  intros l. destruct l; [apply no_self_copy_ret|].
  apply no_self_copy_bind; [apply no_self_copy_modify|]. intros _.
  apply no_self_copy_bind; [apply no_self_copy_read|]. intros lf.
  apply no_self_copy_bind; [|intros; steps].
  destruct lf as [f|]; [apply no_self_copy_ret|].
  apply no_self_copy_bind; [apply no_self_copy_fopen|]. intros f.
  apply no_self_copy_bind; [apply no_self_copy_modify|]. intros _.
  destruct f as [f|]; [apply no_self_copy_modify|].
  apply no_self_copy_bind; [|intros; apply no_self_copy_exit].
  apply ephem_fatal_copies_no_buffer_onto_itself, IH.
Qed.
End NoSelfCopy.

Lemma set_buf_same sl w : set_buf sl (buf w sl) w = w.
Proof. destruct w, sl; reflexivity. Qed.

Lemma strcpy_own_text b sl w :
  fits b (buf w sl) -> strcpy b sl (Ext (buf w sl)) w = Returns tt w.
Proof.
  intros H. rewrite strcpy_fits; [|reflexivity | exact H]. cbn [deref].
  now rewrite set_buf_same.
Qed.

Lemma ephem_log_alias b fuel w :
  fits b (bufD w) ->
  ephem_log b fuel (Own temp_stringD) w = ephem_log b fuel (Ext (bufD w)) w.
Proof.
  intros H. destruct fuel as [|n]; [reflexivity|].
  apply Nat.ltb_lt in H.
  cbn [ephem_log].
  unfold friendly_time_string, fprintf_logfile, fopen, strcpy, bind, read,
    modify, ret, capacity.
  destruct (latch w); [reflexivity|]. norm.
  destruct (logfile w) as [f|] eqn:Hf; norm.
  - rewrite H. reflexivity.
  - destruct (permits w "ephem.log"); norm.
    + rewrite H. reflexivity.
    + destruct (ephem_fatal_with b (ephem_log b n) (Ext (__FILE__ b)) 102
                  (Ext "Could not open log file to write.") _); reflexivity.
Qed.

Lemma bind_congr {A B} (c1 c2 : M A) (k : A -> M B) w :
  c1 w = c2 w -> bind c1 k w = bind c2 k w.
Proof. unfold bind; intros ->; reflexivity. Qed.

(** Claim C6. In a state whose buffers hold strings within their
    capacity, each function called with its own destination buffer as the
    message ([temp_stringA] for error, warning and report, [temp_stringE]
    for fatal, [temp_stringD] for log) has the very outcome, state and
    output included, of the call with a fresh copy of the text that
    buffer holds. The copy of a buffer onto itself is a fault, and no
    function makes one, whatever its message, the state and the fuel.
    From a state at rest the three emitters come back, the buffer still
    holds the message, and the stream and the log got the lines for that
    message; the fatal call ends the process with the message in its
    second line. *)
Theorem aliased_message_is_emitted_like_a_fresh_one
    (b : build) (fuel : nat) (file : ptr) (line : Z) (w : world) :
  buffers_ok b w ->
  (ephem_error b fuel (Own temp_stringA) w
   = ephem_error b fuel (Ext (bufA w)) w /\
   ephem_warning b fuel (Own temp_stringA) w
   = ephem_warning b fuel (Ext (bufA w)) w /\
   ephem_report b fuel (Own temp_stringA) w
   = ephem_report b fuel (Ext (bufA w)) w /\
   ephem_fatal b fuel file line (Own temp_stringE) w
   = ephem_fatal b fuel file line (Ext (bufE w)) w /\
   ephem_log b fuel (Own temp_stringD) w
   = ephem_log b fuel (Ext (bufD w)) w) /\
  (forall sl, strcpy b sl (Own sl) w = Faults overlapping_copy) /\
  (forall msg : ptr,
     no_self_copy (ephem_error b fuel msg) /\
     no_self_copy (ephem_warning b fuel msg) /\
     no_self_copy (ephem_report b fuel msg) /\
     no_self_copy (ephem_fatal b fuel file line msg) /\
     no_self_copy (ephem_log b fuel msg)) /\
  (build_ok b -> at_rest b w ->
   (exists w',
      ephem_error b (S fuel) (Own temp_stringA) w = Returns tt w' /\
      bufA w' = bufA w /\
      emitted b stderr (formatted b ("Error: " ++ bufA w ++ newline))
        (formatted b ("Error: " ++ bufA w)) w (Returns tt w')) /\
   (exists w',
      ephem_warning b (S fuel) (Own temp_stringA) w = Returns tt w' /\
      bufA w' = bufA w /\
      emitted b stderr (formatted b ("Warning: " ++ bufA w ++ newline))
        (formatted b ("Warning: " ++ bufA w)) w (Returns tt w')) /\
   (exists w',
      ephem_report b (S fuel) (Own temp_stringA) w = Returns tt w' /\
      bufA w' = bufA w /\
      emitted b stdout (formatted b (bufA w ++ newline))
        (formatted b ("Reporting: " ++ bufA w)) w (Returns tt w')) /\
   (forall site : string,
    exists w',
      ephem_fatal b (S fuel) (Ext site) line (Own temp_stringE) w = Exits 1 w' /\
      out_stderr w'
      = out_stderr w
        ++ formatted b ("Error: " ++ introline b site line ++ newline)
        ++ formatted b ("Error: " ++ bufE w ++ newline))).
Proof.
  intros Hw.
  pose proof (strcpy_own_text b temp_stringA w (Hw temp_stringA)) as HA.
  pose proof (strcpy_own_text b temp_stringE w (Hw temp_stringE)) as HE.
  cbn [buf] in HA, HE.
  split; [|split; [|split]].
  - repeat split.
    + apply bind_congr. cbn [points_to slot_eqb negb andb].
      now rewrite (bind_returns _ _ _ _ _ HA).
    + apply bind_congr. cbn [points_to slot_eqb negb]. now rewrite HA.
    + apply bind_congr. cbn [points_to slot_eqb negb]. now rewrite HA.
    + apply bind_congr. cbn [points_to slot_eqb negb]. now rewrite HE.
    + apply ephem_log_alias, (Hw temp_stringD).
  - intros sl. apply strcpy_onto_itself.
  - intros msg.
    pose proof (ephem_log_copies_no_buffer_onto_itself b fuel) as Hlog.
    split; [|split; [|split; [|split]]].
    + apply ephem_error_copies_no_buffer_onto_itself, Hlog.
    + apply ephem_warning_copies_no_buffer_onto_itself, Hlog.
    + apply ephem_report_copies_no_buffer_onto_itself, Hlog.
    + apply ephem_fatal_copies_no_buffer_onto_itself, Hlog.
    + apply Hlog.
  - intros Hb Hr. pose proof (at_rest_calm b w Hr) as Hc.
    destruct Hb as [Hf Hlit].
    pose proof (Hw temp_stringA) as HfA. pose proof (Hw temp_stringE) as HfE.
    cbn [buf] in HfA, HfE.
    split; [|split; [|split]].
    + pose proof (ephem_error_emitted b fuel (Own temp_stringA) w Hf HfA Hr) as E.
      rewrite ephem_error_run in E by assumption.
      exists (error_done b (Own temp_stringA) w).
      split; [apply ephem_error_run; assumption|]. split; [|exact E].
      unfold error_done, printed. norm. apply mirrored_bufA.
    + pose proof (ephem_warning_emitted b fuel (Own temp_stringA) w Hf HfA Hr) as E.
      rewrite ephem_warning_run in E by assumption.
      exists (warning_done b (Own temp_stringA) w).
      split; [apply ephem_warning_run; assumption|]. split; [|exact E].
      unfold warning_done, printed. norm. apply mirrored_bufA.
    + pose proof (ephem_report_emitted b fuel (Own temp_stringA) w Hf HfA Hr) as E.
      rewrite ephem_report_run in E by assumption.
      exists (report_done b (Own temp_stringA) w).
      split; [apply ephem_report_run; assumption|]. split; [|exact E].
      unfold report_done, printed. norm. apply mirrored_bufA.
    + intros site.
      exists (fatal_done b (Ext site) line (Own temp_stringE) w). split.
      * apply ephem_fatal_run; [split; assumption | exact HfE | exact Hc].
      * apply fatal_done_stderr.
Qed.

Lemma fread_count_le size nmemb src :
  fst (fst (fread size nmemb src)) <= nmemb.
Proof.
  unfold fread. cbn [fst]. destruct (Nat.eqb_spec size 0) as [|Hs]; [lia|].
  apply Nat.Div0.div_le_upper_bound.
  rewrite length_firstn. lia.
Qed.

(** Claim C8. [fread] never counts more than [nmemb] elements. When the
    source yields fewer complete elements than [nmemb], [dcffread] does
    not come back: it goes through [ephem_fatal] with the message
    "file read fail" and line 114, which in a build whose buffers hold the
    literals ends the process with status 1. Whenever [dcffread] does come
    back, the count was [nmemb], the state is unchanged and all the
    requested bytes were read. *)
Theorem short_read_is_fatal
    (b : build) (n : nat) (size nmemb : nat) (src : list Byte.byte) (w : world) :
  let count := fst (fst (fread size nmemb src)) in
  let run := dcffread b (S (S n)) size nmemb src w in
  count <= nmemb /\
  (count < nmemb ->
   leaves_with_status_1 run /\
   (build_ok b ->
    exists w',
      run = Exits 1 w' /\
      (calm b w ->
       out_stderr w'
       = out_stderr w
         ++ formatted b ("Error: " ++ introline b (__FILE__ b) 114 ++ newline)
         ++ formatted b ("Error: file read fail" ++ newline)))) /\
  (forall r w', run = Returns r w' ->
     count = nmemb /\ w' = w /\
     r = (firstn (size * nmemb) src, skipn (size * nmemb) src)).
Proof.
  intros count run. split; [apply fread_count_le|].
  unfold run, dcffread. unfold count. unfold fread. cbn [fst].
  set (c := if (size =? 0)%nat then 0
            else List.length (firstn (size * nmemb) src) / size).
  destruct (Nat.eqb_spec c nmemb) as [E|E]; cbn [negb].
  - split; [lia|]. intros r w' H. cbv in H. now inversion H.
  - split.
    + intros _.
      pose proof (triple_never _ w (ephem_fatal_never_returns b n
                    (Ext (__FILE__ b)) 114 (Ext "file read fail"))) as Hn.
      split.
      * unfold bind. destruct (ephem_fatal _ _ _ _ _ w); cbn in *; auto.
      * intros Hb.
        assert (Hlit : fits b "file read fail").
        { destruct Hb as [_ H]. unfold fits in *. cbn [String.length] in *. lia. }
        destruct (ephem_fatal_total b n (Ext (__FILE__ b)) 114
                    (Ext "file read fail") w Hb Hlit) as [w' Hw'].
        exists w'. split; [apply bind_exits, Hw'|].
        intros Hc.
        pose proof (ephem_fatal_run b (S n) (Ext (__FILE__ b)) 114
                      (Ext "file read fail") w Hb Hlit Hc) as Hrun.
        rewrite Hrun in Hw'. injection Hw' as <-.
        apply fatal_done_stderr.
    + intros r w' H. exfalso.
      pose proof (triple_never _ w (ephem_fatal_never_returns b n
                    (Ext (__FILE__ b)) 114 (Ext "file read fail"))) as Hn.
      unfold bind in H. destruct (ephem_fatal _ _ _ _ _ w); cbn in *;
        try discriminate. exact Hn.
Qed.

(** * Runs on concrete builds *)

Lemma debug_build_ok : build_ok debug_build.
Proof. split; [split|]; unfold fits; cbn; lia. Defined.

Lemma quiet_build_ok : build_ok quiet_build.
Proof. split; [split|]; unfold fits; cbn; lia. Defined.

(** Against claim C1 as stated: in the build without [DEBUG], a fatal call
    with a writable log file puts its two lines on stderr and ends the
    process, and the log file does not exist afterwards: it was never
    opened. *)
Lemma fatal_without_debug_leaves_the_log_alone :
  exists w',
    ephem_fatal quiet_build 2 (Ext "main.c") 42 (Ext "disk full")
      (boot true None) = Exits 1 w' /\
    out_stderr w'
    = "Error: Fatal Error encountered in main.c at line 42:" ++ newline
      ++ "Error: disk full" ++ newline /\
    disk w' "ephem.log" = None /\ logfile w' = None /\ fopen_calls w' = 0.
Proof. eexists. split; [vm_compute; reflexivity|]. repeat split. Qed.

(** Against claim C3 as stated: the log file holds a line from an earlier
    run; after the first write of this run it holds the new line only. *)
Lemma first_write_discards_what_the_file_held :
  exists w',
    ephem_log debug_build 2 (Ext "started")
      (boot true (Some ("kept from the last run" ++ newline)))
    = Returns tt w' /\
    disk w' "ephem.log" = Some ("[t0] started" ++ newline) /\
    prefix ("kept from the last run" ++ newline)
      (content (disk w') "ephem.log") = false.
Proof. eexists. split; [vm_compute; reflexivity|]. repeat split. Qed.

(** Against claim C4 as stated: a message of 130 letters is within the
    capacity of its buffer (1024 here), yet what reaches stderr is the
    prefix and 120 of the letters: the message is not in the output. *)
Lemma message_within_the_buffer_is_emitted_cut :
  exists w',
    ephem_error quiet_build 2 (Ext (filler 130)) (boot true None)
    = Returns tt w' /\
    String.length (filler 130) <= LSTR_LENGTH quiet_build /\
    out_stderr w' = "Error: " ++ filler 120 /\
    contains (filler 130) (out_stderr w') = false.
Proof.
  eexists. split; [vm_compute; reflexivity|].
  split; [vm_compute; lia|]. split; vm_compute; reflexivity.
Qed.

(** Against claim C7 as stated: a message of 125 letters is within both
    capacities (128 and 1024 here), yet [ephem_error] does not write
    "Error: ", the message and a line feed: the line is cut after 127
    characters. *)
Lemma message_within_both_capacities_is_not_written_whole :
  exists w',
    ephem_error quiet_build 2 (Ext (filler 125)) (boot true None)
    = Returns tt w' /\
    String.length (filler 125) < FNAME_LENGTH quiet_build /\
    out_stderr w' = "Error: " ++ filler 120 /\
    String.eqb (out_stderr w') ("Error: " ++ filler 125 ++ newline) = false.
Proof.
  eexists. split; [vm_compute; reflexivity|].
  split; [vm_compute; lia|]. split; vm_compute; reflexivity.
Qed.

(** Against claim C2 as stated: a message of 1024 letters fills the whole
    capacity of [temp_stringE]; the copy of it writes past the end of the
    buffer, and the call has no exit status. *)
Lemma fatal_overruns_on_a_message_of_the_whole_capacity :
  String.length (filler 1024) = LSTR_LENGTH debug_build /\
  ephem_fatal debug_build 2 (Ext "main.c") 42 (Ext (filler 1024))
    (boot true None)
  = Faults buffer_overrun.
Proof. split; vm_compute; reflexivity. Qed.

(** Against claim C9 as stated. In the build with [DEBUG], with a log
    file that cannot be opened, a fatal call whose message is held in
    [temp_stringA] ends the process with the two lines about the log file
    on stderr: neither the message nor the call site is among them. In
    the build without [DEBUG], a message of 130 letters held in
    [temp_stringA] comes out cut after 120 letters. *)
Lemma fatal_message_in_the_error_slot_is_lost_or_cut :
  (exists w',
     ephem_fatal debug_build 2 (Ext "main.c") 42 (Own temp_stringA)
       (set_buf temp_stringA "disk full" (boot false None)) = Exits 1 w' /\
     out_stderr w'
     = "Error: Fatal Error encountered in src/coreUtils/errorReport.c at line 102:"
       ++ newline ++ "Error: Could not open log file to write." ++ newline /\
     contains "disk full" (out_stderr w') = false /\
     contains "main.c" (out_stderr w') = false) /\
  exists w',
    ephem_fatal quiet_build 2 (Ext "main.c") 42 (Own temp_stringA)
      (set_buf temp_stringA (filler 130) (boot true None)) = Exits 1 w' /\
    out_stderr w'
    = "Error: Fatal Error encountered in main.c at line 42:" ++ newline
      ++ "Error: " ++ filler 120 /\
    contains (filler 130) (out_stderr w') = false.
Proof.
  split.
  - eexists. split; [vm_compute; reflexivity|].
    split; [|split]; vm_compute; reflexivity.
  - eexists. split; [vm_compute; reflexivity|].
    split; vm_compute; reflexivity.
Qed.

Lemma short_fits b s :
  String.length s <= 35 -> build_ok b -> fits b s.
Proof. intros H [_ Hb]. unfold fits in *. cbn [String.length] in Hb. lia. Qed.

(** Claim C1 on a run: the build with [DEBUG], a log file left by an
    earlier run. *)
Lemma fatal_mirrors_only_under_debug_witness :
  exists w',
    ephem_fatal debug_build 1 (Ext "main.c") 42 (Ext "disk full")
      (boot true (Some "old")) = Exits 1 w' /\
    out_stderr w'
    = "Error: Fatal Error encountered in main.c at line 42:" ++ newline
      ++ "Error: disk full" ++ newline /\
    disk w' "ephem.log"
    = Some ("[t0] Error: Fatal Error encountered in main.c at line 42:" ++ newline
            ++ "[t1] Error: disk full" ++ newline
            ++ "[t2] Terminating with error condition 1." ++ newline).
Proof.
  destruct (fatal_mirrors_only_under_debug debug_build 0 "main.c" 42
              (Ext "disk full") (boot true (Some "old")) debug_build_ok)
    as (w' & Hrun & _ & Hwhole & Hlog).
  - apply short_fits; [vm_compute; lia | exact debug_build_ok].
  - apply boot_at_rest.
  - exists w'. split; [exact Hrun|]. split.
    + rewrite Hwhole by (vm_compute; lia). vm_compute. reflexivity.
    + cbn [DEBUG debug_build] in Hlog. rewrite Hlog. vm_compute. reflexivity.
Defined.

(** Claim C2 on a run: the log file cannot be opened. *)
Lemma fatal_never_returns_and_exits_1_witness :
  permits (boot false None) "ephem.log" = false /\
  leaves_with_status_1
    (ephem_fatal debug_build 2 (Ext "main.c") 42 (Ext "disk full")
       (boot false None)) /\
  exists w',
    ephem_fatal debug_build 2 (Ext "main.c") 42 (Ext "disk full")
      (boot false None) = Exits 1 w'.
Proof.
  destruct (fatal_never_returns_and_exits_1 debug_build 0 (Ext "main.c") 42
              (Ext "disk full") (boot false None)) as (H1 & H2 & _).
  split; [reflexivity|]. split; [exact H1|].
  apply H2; [exact debug_build_ok|].
  apply short_fits; [vm_compute; lia | exact debug_build_ok].
Defined.

(** Claim C3 on a run: the first write of a process. *)
Lemma first_write_opens_emptying_witness :
  exists w',
    ephem_log debug_build 1 (Ext "started")
      (boot true (Some "kept from the last run")) = Returns tt w' /\
    fopen_calls w' = 1 /\
    logfile w'
    = Some {| f_path := "ephem.log"; f_buf := _IOLBF; f_pending := "" |} /\
    disk w' "ephem.log" = Some (stamped debug_build 0 "started").
Proof.
  destruct (first_write_opens_emptying_and_line_buffered debug_build 0
              (Ext "started") (boot true (Some "kept from the last run")))
    as [H _].
  - reflexivity.
  - apply short_fits; [vm_compute; lia | exact debug_build_ok].
  - exact (H eq_refl eq_refl).
Defined.

(** Claim C4 on a run: a short message. *)
Lemma stored_message_is_kept_witness :
  (exists w',
     ephem_error quiet_build 1 (Ext "sunrise") (boot true None) = Returns tt w' /\
     bufA w' = "sunrise" /\
     out_stderr w' = "Error: sunrise" ++ newline) /\
  exists w',
    ephem_log quiet_build 1 (Ext "sunrise") (boot true None) = Returns tt w' /\
    bufD w' = "sunrise" /\
    disk w' "ephem.log" = Some ("[t0] sunrise" ++ newline).
Proof.
  destruct (stored_message_is_kept_and_emitted_up_to_the_short_capacity
              quiet_build 0 (Ext "sunrise") (boot true None))
    as ((w' & Hrun & Hbuf & Hout & _ & Hwhole) & Hlog).
  - apply quiet_build_ok.
  - apply short_fits; [vm_compute; lia | exact quiet_build_ok].
  - apply boot_at_rest.
  - split.
    + exists w'. split; [exact Hrun|]. split; [exact (Hbuf eq_refl)|].
      destruct Hwhole as [Hw _]; [vm_compute; lia|].
      rewrite Hout, Hw. reflexivity.
    + destruct Hlog as (w2 & Hrun2 & Hbuf2 & Hdisk); [right; reflexivity|].
      exists w2. split; [exact Hrun2|]. split; [exact Hbuf2|].
      rewrite Hdisk. vm_compute. reflexivity.
Defined.

(** Claim C5 on two runs: a call with the latch set, and a first call
    when the log file cannot be opened. *)
Lemma log_reentry_and_open_failure_witness :
  ephem_log debug_build 1 (Ext "nested")
    (set_latch true (boot false None))
  = Returns tt (set_latch true (boot false None)) /\
  (exists w',
     ephem_log debug_build 2 (Ext "first") (boot false None) = Exits 1 w' /\
     fopen_calls w' = 1 /\ logfile w' = None /\
     disk w' "ephem.log" = None) /\
  exists w',
    ephem_error debug_build 2 (Ext "first") (boot false None) = Exits 1 w' /\
    fopen_calls w' = 1 /\
    out_stderr w'
    = "Error: Fatal Error encountered in src/coreUtils/errorReport.c at line 102:"
      ++ newline ++ "Error: Could not open log file to write." ++ newline.
Proof.
  split; [|split].
  - apply (log_reentry_is_skipped_and_open_failure_exits_once debug_build 0
             (Ext "nested") (set_latch true (boot false None))).
    reflexivity.
  - destruct (log_reentry_is_skipped_and_open_failure_exits_once debug_build 0
                (Ext "first") (boot false None)) as (_ & H & _).
    destruct (H debug_build_ok eq_refl eq_refl eq_refl)
      as (w' & Hrun & Hf & Hd & Hl & _).
    exists w'. split; [exact Hrun|]. split; [exact Hf|]. split; [exact Hl|].
    rewrite Hd. reflexivity.
  - destruct (log_reentry_is_skipped_and_open_failure_exits_once debug_build 0
                (Ext "first") (boot false None)) as (_ & _ & H).
    destruct (H debug_build_ok) as (w' & Hrun & Hf & _ & _ & _ & Herr).
    + repeat split.
    + apply short_fits; [vm_compute; lia | exact debug_build_ok].
    + exists w'. split; [exact Hrun|]. split; [exact Hf|].
      rewrite Herr. vm_compute. reflexivity.
Defined.

Lemma holding_buffers_ok b s : fits b s -> 0 < LSTR_LENGTH b -> buffers_ok b (holding s).
Proof. intros H H0 sl. destruct sl; unfold fits; cbn; try exact H0. exact H. Qed.

(** Claim C6 on a run: [temp_stringA] holds the message. *)
Lemma aliased_message_witness :
  ephem_error debug_build 2 (Own temp_stringA) (holding "sunrise")
  = ephem_error debug_build 2 (Ext "sunrise") (holding "sunrise") /\
  ephem_report debug_build 2 (Own temp_stringA) (holding "sunrise")
  = ephem_report debug_build 2 (Ext "sunrise") (holding "sunrise") /\
  exists w',
    ephem_report debug_build 3 (Own temp_stringA) (holding "sunrise")
    = Returns tt w' /\
    bufA w' = "sunrise" /\
    emitted debug_build stdout ("sunrise" ++ newline) "Reporting: sunrise"
      (holding "sunrise") (Returns tt w').
Proof.
  destruct (aliased_message_is_emitted_like_a_fresh_one debug_build 2
              (Ext "main.c") 42 (holding "sunrise"))
    as ((H1 & _ & H3 & _) & _ & _ & Hout).
  - apply holding_buffers_ok; [|vm_compute; lia].
    apply short_fits; [vm_compute; lia | exact debug_build_ok].
  - split; [exact H1|]. split; [exact H3|].
    destruct Hout as (_ & _ & (w' & Hrun & Hbuf & Hem) & _).
    + exact debug_build_ok.
    + split; [reflexivity|]. split; [exact I|]. intros _. right. reflexivity.
    + exists w'. split; [exact Hrun|]. split; [exact Hbuf | exact Hem].
Defined.

(** Claim C7 on a run: the two messages the specification names. *)
Lemma emitters_write_their_lines_witness :
  emitted debug_build stderr ("Error: bad ephemeris epoch" ++ newline)
    "Error: bad ephemeris epoch" (boot true None)
    (ephem_error debug_build 1 (Ext "bad ephemeris epoch") (boot true None)) /\
  emitted debug_build stdout ("sunrise" ++ newline)
    "Reporting: sunrise" (boot true None)
    (ephem_report debug_build 1 (Ext "sunrise") (boot true None)).
Proof.
  split.
  - destruct (emitters_write_their_lines debug_build 0
                (Ext "bad ephemeris epoch") (boot true None)) as (H & _).
    + apply debug_build_ok.
    + apply boot_at_rest.
    + vm_compute. lia.
    + exact H.
  - destruct (emitters_write_their_lines debug_build 0
                (Ext "sunrise") (boot true None)) as (_ & _ & H).
    + apply debug_build_ok.
    + apply boot_at_rest.
    + vm_compute. lia.
    + exact H.
Defined.

(** Claim C8 on a run: ten elements of four bytes are asked of a source
    that yields thirty bytes, seven whole elements. *)
Lemma short_read_is_fatal_witness :
  fst (fst (fread 4 10 thirty_bytes)) = 7 /\
  exists w',
    dcffread debug_build 2 4 10 thirty_bytes (boot true None) = Exits 1 w' /\
    out_stderr w'
    = "Error: Fatal Error encountered in src/coreUtils/errorReport.c at line 114:"
      ++ newline ++ "Error: file read fail" ++ newline.
Proof.
  split; [reflexivity|].
  destruct (short_read_is_fatal debug_build 0 4 10 thirty_bytes (boot true None))
    as (_ & Hshort & _).
  destruct Hshort as [_ H]; [vm_compute; lia|].
  destruct (H debug_build_ok) as (w' & Hrun & Herr).
  exists w'. split; [exact Hrun|].
  rewrite Herr by (apply at_rest_calm, boot_at_rest).
  vm_compute. reflexivity.
Defined.

(** Claim C9 on a run. *)
Lemma fatal_keeps_a_message_witness :
  exists w',
    ephem_fatal debug_build 1 (Ext "main.c") 42 (Own temp_stringA)
      (holding "disk full") = Exits 1 w' /\
    out_stderr w'
    = "Error: Fatal Error encountered in main.c at line 42:" ++ newline
      ++ "Error: disk full" ++ newline.
Proof.
  destruct (fatal_keeps_a_message_held_in_the_error_slot debug_build 0
              "main.c" 42 (holding "disk full"))
    as (_ & (w' & Hrun & Herr) & Hwhole).
  - apply debug_build_ok.
  - apply short_fits; [vm_compute; lia | exact debug_build_ok].
  - apply at_rest_calm. split; [reflexivity|]. split; [exact I|].
    intros _. right. reflexivity.
  - exists w'. split; [exact Hrun|].
    rewrite Herr, Hwhole by (vm_compute; lia). vm_compute. reflexivity.
Defined.

(** Claim C10 on a run: a message of 130 letters, a short capacity of
    128. *)
Lemma emitted_lines_are_cut_witness :
  emitted debug_build stderr ("Error: " ++ filler 120) ("Error: " ++ filler 120)
    (boot true None)
    (ephem_error debug_build 1 (Ext (filler 130)) (boot true None)) /\
  String.length ("Error: " ++ filler 120) = FNAME_LENGTH debug_build - 1.
Proof.
  destruct (emitted_lines_are_cut_to_the_short_capacity debug_build 0
              (Ext (filler 130)) (boot true None)) as (H1 & _).
  - apply debug_build_ok.
  - unfold fits. vm_compute. lia.
  - apply boot_at_rest.
  - split; [|reflexivity].
    cbn [deref] in H1.
    replace (take (FNAME_LENGTH debug_build - 1) ("Error: " ++ filler 130 ++ newline))
      with ("Error: " ++ filler 120) in H1 by (vm_compute; reflexivity).
    replace (take (FNAME_LENGTH debug_build - 1) ("Error: " ++ filler 130))
      with ("Error: " ++ filler 120) in H1 by (vm_compute; reflexivity).
    exact H1.
Defined.

(** * More of what the code does *)

(** ** The guarded read *)

Lemma fread_count_full size nmemb src :
  0 < size -> size * nmemb <= List.length src ->
  fst (fst (fread size nmemb src)) = nmemb.
Proof.
  intros Hs Hl. unfold fread. cbn [fst].
  destruct (Nat.eqb_spec size 0) as [|_]; [lia|].
  rewrite length_firstn, Nat.min_l by exact Hl.
  rewrite Nat.mul_comm. apply Nat.div_mul. lia.
Qed.

Lemma fread_count_short size nmemb src :
  0 < size -> List.length src < size * nmemb ->
  fst (fst (fread size nmemb src)) < nmemb.
Proof.
  intros Hs Hl. unfold fread. cbn [fst].
  destruct (Nat.eqb_spec size 0) as [|_]; [lia|].
  rewrite length_firstn, Nat.min_r by lia.
  apply Nat.Div0.div_lt_upper_bound. exact Hl.
Qed.

Lemma dcffread_full b fuel size nmemb src w :
  fst (fst (fread size nmemb src)) = nmemb ->
  dcffread b fuel size nmemb src w
  = Returns (firstn (size * nmemb) src, skipn (size * nmemb) src) w.
Proof.
  intros H. unfold dcffread. unfold fread in *. cbn [fst] in H.
  rewrite H, Nat.eqb_refl. reflexivity.
Qed.

Lemma dcffread_short_leaves b n size nmemb src w :
  fst (fst (fread size nmemb src)) <> nmemb ->
  leaves_with_status_1 (dcffread b (S (S n)) size nmemb src w).
Proof.
  intros H. unfold dcffread. unfold fread in *. cbn [fst] in H.
  apply Nat.eqb_neq in H. rewrite H. cbn [negb].
  pose proof (triple_never _ w (ephem_fatal_never_returns b n
                (Ext (__FILE__ b)) 114 (Ext "file read fail"))) as Hn.
  unfold bind. destruct (ephem_fatal _ _ _ _ _ w); cbn in *; auto.
Qed.

(** Extra X1. For elements of a positive size, [dcffread] comes back
    exactly when the source still has [size * nmemb] bytes: it then hands
    over those bytes, leaves the rest of the source, and does not touch
    the state, whatever the fuel; with fewer bytes it does not come back
    and ends the process, if at all, with status 1. *)
Theorem dcffread_returns_exactly_when_the_source_has_the_bytes
    (b : build) (n : nat) (size nmemb : nat) (src : list Byte.byte) (w : world) :
  0 < size ->
  (size * nmemb <= List.length src ->
   forall fuel,
     dcffread b fuel size nmemb src w
     = Returns (firstn (size * nmemb) src, skipn (size * nmemb) src) w /\
     List.length (firstn (size * nmemb) src) = size * nmemb /\
     (firstn (size * nmemb) src ++ skipn (size * nmemb) src)%list = src) /\
  (List.length src < size * nmemb ->
   leaves_with_status_1 (dcffread b (S (S n)) size nmemb src w)).
Proof.
  intros Hs. split.
  - intros Hl fuel. split; [|split].
    + apply dcffread_full, fread_count_full; assumption.
    + rewrite length_firstn. lia.
    + apply firstn_skipn.
  - intros Hl.
    apply dcffread_short_leaves.
    pose proof (fread_count_short size nmemb src Hs Hl). lia.
Qed.

(** Extra X2. A request for no element always comes back at once, with
    nothing read, even from an empty source; a request for one or more
    elements of size zero never comes back, since [fread] then counts
    zero elements. *)
Theorem dcffread_of_nothing_and_of_empty_elements
    (b : build) (n : nat) (size nmemb : nat) (src : list Byte.byte) (w : world) :
  (forall fuel, dcffread b fuel size 0 src w = Returns ([], src) w) /\
  (0 < nmemb ->
   leaves_with_status_1 (dcffread b (S (S n)) 0 nmemb src w)).
Proof.
  split.
  - intros fuel. rewrite dcffread_full.
    + rewrite Nat.mul_0_r. reflexivity.
    + unfold fread. cbn [fst]. rewrite Nat.mul_0_r. cbn [firstn List.length].
      destruct (size =? 0)%nat; [reflexivity|].
      apply Nat.Div0.div_0_l.
  - intros H. apply dcffread_short_leaves. unfold fread. cbn. lia.
Qed.

Lemma firstn_plus {A} (a c : nat) (l : list A) :
  firstn (a + c) l = (firstn a l ++ firstn c (skipn a l))%list.
Proof.
  revert l; induction a as [|a IH]; intros [|x l]; cbn;
    rewrite ?firstn_nil; try reflexivity.
  now rewrite IH.
Qed.

Lemma skipn_plus {A} (a c : nat) (l : list A) :
  skipn c (skipn a l) = skipn (a + c) l.
Proof.
  revert l; induction a as [|a IH]; intros [|x l]; cbn;
    rewrite ?skipn_nil; try reflexivity.
  apply IH.
Qed.

(** Extra X3. Two reads one after the other hand over the bytes one read
    of both counts hands over, and leave the same rest, when the source
    has the bytes for both. *)
Theorem two_reads_are_one_read
    (b : build) (fuel : nat) (size n1 n2 : nat) (src : list Byte.byte) (w : world) :
  0 < size -> size * (n1 + n2) <= List.length src ->
  dcffread_twice b fuel size n1 n2 src w
  = dcffread b fuel size (n1 + n2) src w.
Proof.
  intros Hs Hl. unfold dcffread_twice.
  assert (H1 : size * n1 <= List.length src) by nia.
  assert (H2 : size * n2 <= List.length (skipn (size * n1) src))
    by (rewrite length_skipn; nia).
  unfold bind.
  rewrite (dcffread_full b fuel size n1 src w)
    by (apply fread_count_full; assumption).
  cbn [fst snd].
  rewrite (dcffread_full b fuel size n2 _ w)
    by (apply fread_count_full; assumption).
  rewrite (dcffread_full b fuel size (n1 + n2) src w)
    by (apply fread_count_full; assumption).
  cbn [fst snd]. unfold ret.
  rewrite Nat.mul_add_distr_l, firstn_plus, skipn_plus. reflexivity.
Qed.

(** ** Calls one after the other *)

Lemma append_nil_r (s : string) : s ++ "" = s.
Proof. induction s as [|c s IH]; simpl; [reflexivity | now rewrite IH]. Qed.

(** Extra X4. Calls of [ephem_log] one after the other, from a state with
    the latch free and a log file that is open or can be opened: every
    call comes back with the latch free again, the file holds what it
    held for the process followed by one stamped line per call in the
    order of the calls, the clock was read once per line, [fopen] was
    called once if the file was not open and not at all otherwise, and
    neither stdout nor stderr got anything. No [DEBUG] is asked for: a
    direct call of [ephem_log] logs in every build. *)
Theorem log_writes_append_their_lines_in_order
    (b : build) (n : nat) (m : string) (rest : list string) (w : world) :
  latch w = false -> sink_ok w -> sink_usable w ->
  Forall (fits b) (m :: rest) ->
  exists w',
    log_each b (S n) (m :: rest) w = Returns tt w' /\
    latch w' = false /\ logfile w' = Some log_stream /\
    disk w' "ephem.log"
    = Some (log_base w ++ stamped_from b (clock w) (m :: rest)) /\
    clock w' = clock w + List.length (m :: rest) /\
    fopen_calls w' = match logfile w with
                     | Some _ => fopen_calls w
                     | None => S (fopen_calls w)
                     end /\
    out_stdout w' = out_stdout w /\ out_stderr w' = out_stderr w.
Proof.
  revert m w. induction rest as [|m' rest IH]; intros m w Hl Hs Hu Hf.
  - inversion Hf as [|? ? Hm _]; subst.
    pose proof (logged_sink_after b m w Hs) as [A1 A2 A3 A4 A5 A6].
    exists (logged b m w). cbn [log_each].
    rewrite (bind_returns _ _ _ _ _ (ephem_log_writes b n (Ext m) w Hl Hu Hm)).
    split; [reflexivity|]. split; [exact A1|]. split; [exact A2|].
    split; [|split; [|split; [exact A6|split]]].
    + rewrite A3. cbn [stamped_from]. now rewrite append_nil_r.
    + rewrite A4. cbn [List.length]. lia.
    + apply logged_stdout.
    + apply logged_stderr.
  - inversion Hf as [|? ? Hm Hrest]; subst.
    pose proof (logged_sink_after b m w Hs) as A.
    pose proof A as [A1 A2 A3 A4 A5 A6].
    set (w1 := logged b m w) in *.
    destruct (IH m' w1 A1) as (w' & R & B1 & B2 & B3 & B4 & B5 & B6 & B7).
    + eapply sink_after_ok, A.
    + left. congruence.
    + exact Hrest.
    + exists w'. cbn [log_each].
      rewrite (bind_returns _ _ _ _ _ (ephem_log_writes b n (Ext m) w Hl Hu Hm)).
      fold w1. split; [exact R|]. split; [exact B1|]. split; [exact B2|].
      split; [|split; [|split; [|split]]].
      * rewrite B3, (sink_after_base _ _ _ _ A), A4.
        cbn [stamped_from]. rewrite append_assoc. reflexivity.
      * rewrite B4, A4. cbn [List.length]. lia.
      * rewrite B5, A2. exact A6.
      * rewrite B6. apply logged_stdout.
      * rewrite B7. apply logged_stderr.
Qed.

Lemma done_sink_after b st line logtext w w1 :
  DEBUG b = true -> at_rest b w ->
  logfile w1 = logfile w -> disk w1 = disk w -> clock w1 = clock w ->
  permits w1 = permits w -> fopen_calls w1 = fopen_calls w ->
  latch w1 = latch w ->
  sink_after b (formatted b logtext) w
    (printed b st line (mirrored b logtext w1)).
Proof.
  intros HD (Hl & Hs & Hu) F1 F2 F3 F4 F5 F6.
  apply printed_sink_after.
  eapply sink_after_frame; [apply mirrored_sink_after | | | | | ];
    try eassumption; [congruence|].
  eapply sink_ok_frame; eassumption.
Qed.

Lemma done_quiet b st line logtext w w1 :
  DEBUG b = false ->
  logfile w1 = logfile w -> disk w1 = disk w -> clock w1 = clock w ->
  fopen_calls w1 = fopen_calls w ->
  let w' := printed b st line (mirrored b logtext w1) in
  logfile w' = logfile w /\ disk w' = disk w /\ clock w' = clock w /\
  fopen_calls w' = fopen_calls w.
Proof.
  intros HD F1 F2 F3 F5. rewrite mirrored_quiet by exact HD.
  unfold printed. norm. auto.
Qed.

Lemma done_streams b st line logtext w w1 :
  out_stderr w1 = out_stderr w -> out_stdout w1 = out_stdout w ->
  let w' := printed b st line (mirrored b logtext w1) in
  stream_out st w' = stream_out st w ++ formatted b line /\
  stream_out (other st) w' = stream_out (other st) w.
Proof.
  intros F7 F8. split.
  - destruct st; unfold printed; cbn [stream_out]; norm;
      rewrite ?mirrored_stderr, ?mirrored_stdout; congruence.
  - destruct st; unfold printed; cbn [stream_out other]; norm;
      rewrite ?mirrored_stderr, ?mirrored_stdout; congruence.
Qed.

Lemma run_call_step b n c w :
  formats_fit b -> at_rest b w ->
  String.length (call_text c) + 12 <= FNAME_LENGTH b ->
  exists w', run_call b (S n) c w = Returns tt w' /\ stepped b c w w'.
Proof.
  intros Hb Hr Hlen.
  pose proof (at_rest_calm b w Hr) as Hc.
  assert (Hm : fits b (call_text c))
    by (unfold fits, formats_fit in *; lia).
  assert (Hline : formatted b (call_line c) = call_line c).
  { apply formatted_short. destruct c; cbn [call_line call_text] in *;
      rewrite !length_append; change (String.length newline) with 1;
      cbn [String.length]; lia. }
  assert (Hlog : formatted b (call_log c) = call_log c).
  { apply formatted_short. destruct c; cbn [call_log call_text] in *;
      rewrite !length_append; cbn [String.length]; lia. }
  destruct c as [m|m|m]; cbn [run_call call_text] in *.
  - exists (error_done b (Ext m) w).
    split; [apply ephem_error_run; assumption|].
    destruct (taken_by_error_frame (Ext m) w)
      as (F1 & F2 & F3 & F4 & F5 & F6 & F7 & F8).
    unfold error_done. cbn [deref].
    destruct (done_streams b stderr ("Error: " ++ m ++ newline) ("Error: " ++ m)
                w _ F7 F8) as [S1 S2].
    split.
    + apply (done_at_rest b _ _ _ w); assumption.
    + cbn [call_stream call_line] in *. rewrite S1, Hline. reflexivity.
    + exact S2.
    + destruct (DEBUG b) eqn:HD.
      * rewrite <- Hlog. apply done_sink_after; assumption.
      * apply done_quiet; assumption.
  - exists (warning_done b (Ext m) w).
    split; [apply ephem_warning_run; assumption|].
    destruct (taken_frame temp_stringA (Ext m) w)
      as (F1 & F2 & F3 & F4 & F5 & F6 & F7 & F8).
    unfold warning_done. cbn [deref].
    destruct (done_streams b stderr ("Warning: " ++ m ++ newline)
                ("Warning: " ++ m) w _ F7 F8) as [S1 S2].
    split.
    + apply (done_at_rest b _ _ _ w); assumption.
    + cbn [call_stream call_line] in *. rewrite S1, Hline. reflexivity.
    + exact S2.
    + destruct (DEBUG b) eqn:HD.
      * rewrite <- Hlog. apply done_sink_after; assumption.
      * apply done_quiet; assumption.
  - exists (report_done b (Ext m) w).
    split; [apply ephem_report_run; assumption|].
    destruct (taken_frame temp_stringA (Ext m) w)
      as (F1 & F2 & F3 & F4 & F5 & F6 & F7 & F8).
    unfold report_done. cbn [deref].
    destruct (done_streams b stdout (m ++ newline)
                ("Reporting: " ++ m) w _ F7 F8) as [S1 S2].
    split.
    + apply (done_at_rest b _ _ _ w); assumption.
    + cbn [call_stream call_line] in *. rewrite S1, Hline. reflexivity.
    + exact S2.
    + destruct (DEBUG b) eqn:HD.
      * rewrite <- Hlog. apply done_sink_after; assumption.
      * apply done_quiet; assumption.
Qed.

Lemma stepped_stream b c w w' st :
  stepped b c w w' ->
  stream_out st w'
  = stream_out st w
    ++ (if stream_eqb (call_stream c) st then call_line c else "").
Proof.
  intros [_ S1 S2 _].
  destruct (call_stream c), st; cbn [stream_eqb other] in *;
    rewrite ?append_nil_r; assumption.
Qed.

(** Extra X5. Emitter calls one after the other, from a state at rest,
    with messages short enough not to be cut: all come back, stdout holds
    the report lines and stderr the error and warning lines, each in the
    order of the calls, the state is at rest again; in a build with
    [DEBUG] the log holds one stamped line per call in that order after one
    call of [fopen] at most, and without [DEBUG] the log is as it was. *)
Theorem emitter_calls_keep_their_order
    (b : build) (n : nat) (c : call) (cs : list call) (w : world) :
  formats_fit b -> at_rest b w ->
  Forall (fun c => String.length (call_text c) + 12 <= FNAME_LENGTH b) (c :: cs) ->
  exists w',
    run_calls b (S n) (c :: cs) w = Returns tt w' /\
    calls_done b (c :: cs) w w'.
Proof.
  intros Hb. revert c w.
  induction cs as [|c' cs IH]; intros c w Hr Hf;
    inversion Hf as [|? ? Hc Hcs]; subst;
    destruct (run_call_step b n c w Hb Hr Hc) as (w1 & R1 & St).
  - exists w1. cbn [run_calls]. rewrite (bind_returns _ _ _ _ _ R1).
    split; [reflexivity|]. unfold calls_done.
    pose proof (stepped_stream b c w w1 stdout St) as O.
    pose proof (stepped_stream b c w w1 stderr St) as E.
    cbn [stream_out] in O, E. destruct St as [T1 _ _ T4].
    split; [exact T1|]. cbn [sent_to map stamped_from].
    rewrite !append_nil_r. split; [exact O|]. split; [exact E|].
    destruct (DEBUG b).
    + destruct T4 as [_ _ A3 _ _ A6]. split; [exact A3 | exact A6].
    + destruct T4 as (A1 & A2 & _ & A4). auto.
  - pose proof (stepped_stream b c w w1 stdout St) as O.
    pose proof (stepped_stream b c w w1 stderr St) as E.
    cbn [stream_out] in O, E. destruct St as [T1 _ _ T4].
    destruct (IH c' w1 T1 Hcs) as (w' & R & D1 & D2 & D3 & D4).
    exists w'. change (run_calls b (S n) (c :: c' :: cs))
      with (run_call b (S n) c ;; run_calls b (S n) (c' :: cs)).
    rewrite (bind_returns _ _ _ _ _ R1).
    split; [exact R|]. unfold calls_done.
    split; [exact D1|].
    split; [|split].
    + rewrite D2, O. change (sent_to stdout (c :: c' :: cs))
        with ((if stream_eqb (call_stream c) stdout then call_line c else "")
              ++ sent_to stdout (c' :: cs)).
      now rewrite append_assoc.
    + rewrite D3, E. change (sent_to stderr (c :: c' :: cs))
        with ((if stream_eqb (call_stream c) stderr then call_line c else "")
              ++ sent_to stderr (c' :: cs)).
      now rewrite append_assoc.
    + destruct (DEBUG b).
      * destruct D4 as [D4 D5]. pose proof T4 as [_ A2 _ A4 _ A6].
        split.
        -- rewrite D4, (sink_after_base _ _ _ _ T4), A4.
           change (map call_log (c :: c' :: cs))
             with (call_log c :: map call_log (c' :: cs)).
           cbn [stamped_from]. rewrite append_assoc. reflexivity.
        -- rewrite D5, A2. exact A6.
      * destruct T4 as (A1 & A2 & _ & A4). destruct D4 as (B1 & B2 & B3).
        repeat split; congruence.
Qed.

(** ** Edges of the emitters *)

(** *** When the log file cannot be opened *)

Lemma error_done_stdout b msg w : out_stdout (error_done b msg w) = out_stdout w.
Proof.
  unfold error_done, printed. norm. rewrite mirrored_stdout.
  unfold taken_by_error.
  destruct (negb (points_to msg temp_stringA) && negb (points_to msg temp_stringB));
    reflexivity.
Qed.

Lemma fflush_logfile_stdout w : out_stdout (fflush_logfile w) = out_stdout w.
Proof.
  unfold fflush_logfile. destruct (logfile w) as [f|]; [|reflexivity].
  destruct (f_pending f); reflexivity.
Qed.

Lemma fatal_done_stdout b file line msg w :
  out_stdout (fatal_done b file line msg w) = out_stdout w.
Proof.
  unfold fatal_done. rewrite fflush_logfile_stdout.
  destruct (taken_frame temp_stringE msg w) as (_ & _ & _ & _ & _ & _ & _ & F).
  set (w1 := taken temp_stringE msg w) in *.
  set (w3 := error_done b (Own temp_stringE) _).
  assert (H3 : out_stdout w3 = out_stdout w).
  { unfold w3. rewrite !error_done_stdout. exact F. }
  destruct (DEBUG b); [|exact H3].
  destruct (latch w3); [exact H3|]. now rewrite logged_stdout.
Qed.

Lemma open_failed_streams b w :
  out_stdout (open_failed b w) = out_stdout w /\
  out_stderr (open_failed b w) = out_stderr w ++ log_failure_lines b.
Proof.
  split.
  - unfold open_failed. now rewrite fatal_done_stdout.
  - apply open_failed_facts.
Qed.

Lemma open_failed_ends b w w2 :
  out_stdout w2 = out_stdout w -> out_stderr w2 = out_stderr w ->
  ends_on_log_failure b w (Exits 1 (open_failed b w2)).
Proof.
  intros F8 F7. eexists. split; [reflexivity|].
  destruct (open_failed_streams b w2) as [O E].
  rewrite O, E, F7, F8. auto.
Qed.

(** Extra X6. In a build with [DEBUG], when the log file is not open and
    cannot be opened, a call of any emitter ends the process with status
    1 and writes nothing of its own: stderr gets the two lines about the
    log file, with the place in errorReport.c, and stdout nothing; for
    [ephem_fatal] the place and the message of the caller are not
    written. *)
Theorem call_is_lost_when_the_log_cannot_be_opened
    (b : build) (n : nat) (file : string) (line : Z) (msg : ptr) (w : world) :
  build_ok b -> stuck b w -> fits b (deref w msg) ->
  ends_on_log_failure b w (ephem_error b (S (S n)) msg w) /\
  ends_on_log_failure b w (ephem_warning b (S (S n)) msg w) /\
  ends_on_log_failure b w (ephem_report b (S (S n)) msg w) /\
  ends_on_log_failure b w (ephem_fatal b (S (S n)) (Ext file) line msg w).
Proof.
  intros Hb Hs Hm.
  destruct (taken_by_error_frame msg w) as (_ & _ & _ & _ & _ & _ & E7 & E8).
  destruct (taken_frame temp_stringA msg w) as (_ & _ & _ & _ & _ & _ & A7 & A8).
  destruct (taken_frame temp_stringE msg w) as (_ & _ & _ & _ & _ & _ & T7 & T8).
  split; [|split; [|split]].
  - rewrite ephem_error_fails by assumption.
    apply open_failed_ends; norm; assumption.
  - rewrite ephem_warning_fails by assumption.
    apply open_failed_ends; norm; assumption.
  - rewrite ephem_report_fails by assumption.
    apply open_failed_ends; norm; assumption.
  - pose proof (ephem_fatal_fails b n (Ext file) line msg w Hb Hm Hs) as R.
    cbv zeta in R. rewrite R.
    apply open_failed_ends; norm; assumption.
Qed.

(** *** A message that fills the short capacity *)

Lemma take_append_short (n : nat) (s t : string) :
  n <= String.length s -> take n (s ++ t) = take n s.
Proof.
  revert s; induction n as [|n IH]; intros [|c s] H; cbn in *;
    try reflexivity; try lia.
  now rewrite IH by lia.
Qed.

Lemma formatted_without_line_feed b p m :
  FNAME_LENGTH b <= String.length p + String.length m + 1 ->
  formatted b (p ++ m ++ newline) = formatted b (p ++ m).
Proof.
  intros H. unfold formatted. rewrite <- append_assoc.
  apply take_append_short. rewrite length_append. lia.
Qed.

(** Extra X7. When the prefix and the message alone fill the
    [FNAME_LENGTH - 1] characters that are kept, the line feed is among
    what is cut: the text sent to the stream is the cut text without a
    line feed, the same text as the one sent to the log for the error and
    warning emitters. *)
Theorem line_feed_is_cut_off_a_long_message
    (b : build) (n : nat) (msg : ptr) (w : world) :
  formats_fit b -> fits b (deref w msg) -> at_rest b w ->
  let m := deref w msg in
  let cut := take (FNAME_LENGTH b - 1) in
  (FNAME_LENGTH b <= String.length m + 8 ->
   emitted b stderr (cut ("Error: " ++ m)) (cut ("Error: " ++ m)) w
     (ephem_error b (S n) msg w)) /\
  (FNAME_LENGTH b <= String.length m + 10 ->
   emitted b stderr (cut ("Warning: " ++ m)) (cut ("Warning: " ++ m)) w
     (ephem_warning b (S n) msg w)) /\
  (FNAME_LENGTH b <= String.length m + 1 ->
   emitted b stdout (cut m) (cut ("Reporting: " ++ m)) w
     (ephem_report b (S n) msg w)).
Proof.
  intros Hb Hm Hr m cut. split; [|split]; intros Hlen.
  - pose proof (ephem_error_emitted b n msg w Hb Hm Hr) as H.
    rewrite (formatted_without_line_feed b "Error: " (deref w msg)) in H
      by (cbn [String.length]; fold m; lia).
    exact H.
  - pose proof (ephem_warning_emitted b n msg w Hb Hm Hr) as H.
    rewrite (formatted_without_line_feed b "Warning: " (deref w msg)) in H
      by (cbn [String.length]; fold m; lia).
    exact H.
  - pose proof (ephem_report_emitted b n msg w Hb Hm Hr) as H.
    change (deref w msg ++ newline) with ("" ++ deref w msg ++ newline) in H.
    rewrite (formatted_without_line_feed b "" (deref w msg)) in H
      by (cbn [String.length]; fold m; lia).
    exact H.
Qed.

(** *** [temp_stringB] as the message of [ephem_error] *)

Lemma mirrored_bufB b t w : bufB (mirrored b t w) = bufB w.
Proof. apply (mirrored_buf b t w temp_stringB); discriminate. Qed.

(** Extra X8. [ephem_error] takes [temp_stringB] as a message in place:
    it writes the line for the text there and leaves both [temp_stringA]
    and [temp_stringB] as they were; [ephem_warning], which knows only
    [temp_stringA], copies that text into [temp_stringA]. *)
Theorem ephem_error_reads_temp_stringB_in_place
    (b : build) (n : nat) (w : world) :
  formats_fit b -> fits b (bufB w) -> calm b w ->
  (exists w',
     ephem_error b (S n) (Own temp_stringB) w = Returns tt w' /\
     bufA w' = bufA w /\ bufB w' = bufB w /\
     out_stderr w'
     = out_stderr w ++ formatted b ("Error: " ++ bufB w ++ newline)) /\
  (exists w',
     ephem_warning b (S n) (Own temp_stringB) w = Returns tt w' /\
     bufA w' = bufB w /\ bufB w' = bufB w /\
     out_stderr w'
     = out_stderr w ++ formatted b ("Warning: " ++ bufB w ++ newline)).
Proof.
  intros Hb Hm Hc. split.
  - exists (error_done b (Own temp_stringB) w).
    split; [apply ephem_error_run; assumption|].
    split; [|split].
    + unfold error_done, printed. norm. now rewrite mirrored_bufA.
    + unfold error_done, printed. norm. now rewrite mirrored_bufB.
    + apply error_done_stderr.
  - exists (warning_done b (Own temp_stringB) w).
    split; [apply ephem_warning_run; assumption|].
    split; [|split].
    + unfold warning_done, printed. norm. now rewrite mirrored_bufA.
    + unfold warning_done, printed. norm. now rewrite mirrored_bufB.
    + unfold warning_done, printed. norm. now rewrite mirrored_stderr.
Qed.

(** *** A message of the whole capacity or more *)


(** *** In a build without [DEBUG] *)

Lemma done_without_logging b st line logtext w w1 :
  DEBUG b = false ->
  logfile w1 = logfile w -> disk w1 = disk w -> clock w1 = clock w ->
  fopen_calls w1 = fopen_calls w -> latch w1 = latch w -> bufD w1 = bufD w ->
  comes_back_without_logging w
    (Returns tt (printed b st line (mirrored b logtext w1))).
Proof.
  intros HD F1 F2 F3 F5 F6 F9. eexists. split; [reflexivity|].
  rewrite mirrored_quiet by exact HD. unfold printed. norm.
  repeat split; assumption.
Qed.

Lemma taken_bufD msg w :
  bufD (taken temp_stringA msg w) = bufD w /\
  bufD (taken_by_error msg w) = bufD w.
Proof.
  unfold taken, taken_by_error.
  destruct (negb (points_to msg temp_stringA)),
           (negb (points_to msg temp_stringB)); split; reflexivity.
Qed.

(** Extra X11. In a build without [DEBUG], from any state at all, the
    three emitters come back for every message that fits its buffer, and
    they leave the log alone: they do not open the file, do not write to
    it, do not read the clock and do not take the latch. *)
Theorem emitters_without_debug_leave_the_log_alone
    (b : build) (n : nat) (msg : ptr) (w : world) :
  DEBUG b = false -> formats_fit b -> fits b (deref w msg) ->
  comes_back_without_logging w (ephem_error b (S n) msg w) /\
  comes_back_without_logging w (ephem_warning b (S n) msg w) /\
  comes_back_without_logging w (ephem_report b (S n) msg w).
Proof.
  intros HD Hb Hm.
  assert (Hc : calm b w) by (intros H; congruence).
  destruct (taken_by_error_frame msg w) as (E1 & E2 & E3 & _ & E5 & E6 & _).
  destruct (taken_frame temp_stringA msg w) as (A1 & A2 & A3 & _ & A5 & A6 & _).
  destruct (taken_bufD msg w) as [DA DE].
  split; [|split].
  - rewrite ephem_error_run by assumption.
    apply done_without_logging; assumption.
  - rewrite ephem_warning_run by assumption.
    apply done_without_logging; assumption.
  - rewrite ephem_report_run by assumption.
    apply done_without_logging; assumption.
Qed.

(** *** The state between calls *)

(** Extra X10. From a state at rest whose buffers hold strings within
    capacity, every emitter comes back for a message that fits its
    buffer, and the state it leaves is again at rest with buffers within
    capacity: what one call needs, the call before it has left. *)
Theorem emitters_come_back_to_a_state_at_rest
    (b : build) (n : nat) (msg : ptr) (w : world) :
  formats_fit b -> fits b (deref w msg) -> at_rest b w -> buffers_ok b w ->
  (exists w', ephem_error b (S n) msg w = Returns tt w' /\
              at_rest b w' /\ buffers_ok b w') /\
  (exists w', ephem_warning b (S n) msg w = Returns tt w' /\
              at_rest b w' /\ buffers_ok b w') /\
  (exists w', ephem_report b (S n) msg w = Returns tt w' /\
              at_rest b w' /\ buffers_ok b w').
Proof.
  intros Hb Hm Hr Hw.
  pose proof (at_rest_calm b w Hr) as Hc.
  pose proof (ephem_error_run b n msg w Hb Hm Hc) as E.
  pose proof (ephem_warning_run b n msg w Hb Hm Hc) as W.
  pose proof (ephem_report_run b n msg w Hb Hm Hc) as R.
  split; [|split]; eexists; (split; [eassumption|]);
    apply (emitters_keep_the_state_at_rest b n msg w); auto.
Qed.

(** ** The extras on runs *)

(** Extra X1 on a run: seven elements of four bytes can be had from
    thirty bytes, eight cannot. *)
Lemma dcffread_exact_read_witness :
  dcffread debug_build 0 4 7 thirty_bytes (boot true None)
  = Returns (repeat Byte.x00 28, repeat Byte.x00 2) (boot true None) /\
  leaves_with_status_1 (dcffread debug_build 2 4 8 thirty_bytes (boot true None)).
Proof.
  destruct (dcffread_returns_exactly_when_the_source_has_the_bytes
              debug_build 0 4 7 thirty_bytes (boot true None)) as [H _];
    [lia|].
  destruct (dcffread_returns_exactly_when_the_source_has_the_bytes
              debug_build 0 4 8 thirty_bytes (boot true None)) as [_ K];
    [lia|].
  split.
  - destruct (H ltac:(vm_compute; lia) 0) as [R _]. exact R.
  - apply K. vm_compute. lia.
Defined.

(** Extra X2 on a run. *)
Lemma dcffread_zero_witness :
  dcffread debug_build 0 4 0 [] (boot true None)
  = Returns ([], []) (boot true None) /\
  leaves_with_status_1 (dcffread debug_build 2 0 3 thirty_bytes (boot true None)).
Proof.
  split.
  - apply (dcffread_of_nothing_and_of_empty_elements debug_build 0 4 0 []
             (boot true None)).
  - apply (dcffread_of_nothing_and_of_empty_elements debug_build 0 0 3
             thirty_bytes (boot true None)). lia.
Defined.

(** Extra X3 on a run: three elements, then four, of four bytes each. *)
Lemma two_reads_are_one_read_witness :
  dcffread_twice debug_build 0 4 3 4 thirty_bytes (boot true None)
  = dcffread debug_build 0 4 7 thirty_bytes (boot true None).
Proof.
  apply (two_reads_are_one_read debug_build 0 4 3 4 thirty_bytes
           (boot true None)); vm_compute; lia.
Defined.

Lemma fits_debug s : String.length s <= 35 -> fits debug_build s.
Proof. intros H. apply short_fits; [exact H | exact debug_build_ok]. Qed.

(** Extra X4 on a run: two lines after what an earlier run left. *)
Lemma log_writes_witness :
  exists w',
    log_each quiet_build 1 ["one"; "two"] (boot true (Some "old"))
    = Returns tt w' /\
    disk w' "ephem.log"
    = Some ("[t0] one" ++ newline ++ "[t1] two" ++ newline) /\
    fopen_calls w' = 1 /\ latch w' = false.
Proof.
  destruct (log_writes_append_their_lines_in_order quiet_build 0 "one" ["two"]
              (boot true (Some "old")))
    as (w' & R & L & _ & D & _ & F & _).
  - reflexivity.
  - exact I.
  - right. reflexivity.
  - repeat constructor; unfold fits; vm_compute; lia.
  - exists w'. split; [exact R|]. split; [|split; [exact F | exact L]].
    rewrite D. vm_compute. reflexivity.
Defined.

(** Extra X5 on a run. *)
Lemma emitter_calls_witness :
  exists w',
    run_calls debug_build 1
      [Report "sunrise"; Error "bad ephemeris epoch"; Report "sunset"]
      (boot true None) = Returns tt w' /\
    out_stdout w' = "sunrise" ++ newline ++ "sunset" ++ newline /\
    out_stderr w' = "Error: bad ephemeris epoch" ++ newline /\
    disk w' "ephem.log"
    = Some ("[t0] Reporting: sunrise" ++ newline
            ++ "[t1] Error: bad ephemeris epoch" ++ newline
            ++ "[t2] Reporting: sunset" ++ newline).
Proof.
  destruct (emitter_calls_keep_their_order debug_build 0 (Report "sunrise")
              [Error "bad ephemeris epoch"; Report "sunset"] (boot true None))
    as (w' & R & _ & O & E & D & _).
  - apply debug_build_ok.
  - apply boot_at_rest.
  - repeat constructor; vm_compute; lia.
  - exists w'. split; [exact R|].
    split; [rewrite O; vm_compute; reflexivity|].
    split; [rewrite E; vm_compute; reflexivity|].
    rewrite D. vm_compute. reflexivity.
Defined.

Lemma boot_stuck : stuck debug_build (boot false None).
Proof. repeat split. Qed.

(** Extra X6 on a run: the report never reaches stdout. *)
Lemma call_is_lost_witness :
  exists w',
    ephem_report debug_build 2 (Ext "sunrise") (boot false None) = Exits 1 w' /\
    out_stdout w' = "" /\
    out_stderr w'
    = "Error: Fatal Error encountered in src/coreUtils/errorReport.c at line 102:"
      ++ newline ++ "Error: Could not open log file to write." ++ newline.
Proof.
  destruct (call_is_lost_when_the_log_cannot_be_opened debug_build 0 "main.c" 42
              (Ext "sunrise") (boot false None))
    as (_ & _ & (w' & R & O & E) & _).
  - exact debug_build_ok.
  - exact boot_stuck.
  - apply fits_debug. vm_compute. lia.
  - exists w'. split; [exact R|]. split; [exact O|].
    rewrite E. vm_compute. reflexivity.
Defined.

(** Extra X7 on a run: a message of 125 letters, a short capacity of
    128. *)
Lemma line_feed_is_cut_witness :
  emitted debug_build stderr ("Error: " ++ filler 120) ("Error: " ++ filler 120)
    (boot true None)
    (ephem_error debug_build 1 (Ext (filler 125)) (boot true None)).
Proof.
  destruct (line_feed_is_cut_off_a_long_message debug_build 0
              (Ext (filler 125)) (boot true None)) as (H & _).
  - apply debug_build_ok.
  - unfold fits. vm_compute. lia.
  - apply boot_at_rest.
  - cbn [deref] in H.
    replace (take (FNAME_LENGTH debug_build - 1) ("Error: " ++ filler 125))
      with ("Error: " ++ filler 120) in H by (vm_compute; reflexivity).
    apply H. vm_compute. lia.
Defined.

(** Extra X8 on a run. *)
Lemma temp_stringB_in_place_witness :
  exists w',
    ephem_error debug_build 1 (Own temp_stringB)
      (set_buf temp_stringB "second" (holding "first")) = Returns tt w' /\
    bufA w' = "first" /\ bufB w' = "second" /\
    out_stderr w' = "Error: second" ++ newline.
Proof.
  destruct (ephem_error_reads_temp_stringB_in_place debug_build 0
              (set_buf temp_stringB "second" (holding "first")))
    as ((w' & R & A & B & E) & _).
  - apply debug_build_ok.
  - apply fits_debug. vm_compute. lia.
  - intros _. right. right. reflexivity.
  - exists w'. split; [exact R|]. split; [exact A|]. split; [exact B|].
    rewrite E. vm_compute. reflexivity.
Defined.


(** Extra X10 on a run. *)
Lemma state_at_rest_witness :
  exists w',
    ephem_report debug_build 1 (Ext "sunrise") (boot true None) = Returns tt w' /\
    at_rest debug_build w' /\ buffers_ok debug_build w'.
Proof.
  destruct (emitters_come_back_to_a_state_at_rest debug_build 0 (Ext "sunrise")
              (boot true None)) as (_ & _ & H).
  - apply debug_build_ok.
  - apply fits_debug. vm_compute. lia.
  - apply boot_at_rest.
  - apply boot_buffers_ok. vm_compute. lia.
  - exact H.
Defined.

(** Extra X11 on a run: the state in the middle of a log write. *)
Lemma emitters_without_debug_witness :
  comes_back_without_logging (set_latch true (boot false None))
    (ephem_warning quiet_build 1 (Ext "low battery")
       (set_latch true (boot false None))).
Proof.
  destruct (emitters_without_debug_leave_the_log_alone quiet_build 0
              (Ext "low battery") (set_latch true (boot false None)))
    as (_ & H & _).
  - reflexivity.
  - apply quiet_build_ok.
  - apply short_fits; [vm_compute; lia | exact quiet_build_ok].
  - exact H.
Defined.
